(** * bin_computer: the bin-collection display server and the badge firmware

    A shallow embedding of [server/bin_server.py] (the relative-date
    classifier, the Inkscape action builder and the next-update scan) and of
    [firmware/main.py] (the fetch/display/sleep loop with its exponential
    backoff), with the properties the specification states about them.

    Conventions.
    - A [datetime.date] is its proleptic Gregorian ordinal ([toordinal()]),
      an integer; [then - now] is the difference of ordinals and adding a
      [timedelta(days=1)] adds one.  The calendar is only needed to name
      concrete days ([ymd2ord]).
    - A Python [str] is a [string]; a [dict[str, date]] is a [gmap string Z].
    - A raised exception is the [Raise] case of [result]; [print] calls are
      not part of the model.
    - [now=None] defaults read the clock; the model takes [now] as given. *)

From Stdlib Require Import ZArith List String Ascii Lia Bool.
From Stdlib Require QArith Qround.
From stdpp Require Import gmap strings list sorting pretty.

Local Open Scope Z_scope.

(** ** Exceptions and results *)

Module Py.

(** The line-feed character of Python's ["\n"]. *)
Definition nl : string := String (ascii_of_nat 10) EmptyString.

(** [str.lower()] on ASCII letters. *)
Definition lower_ascii (c : ascii) : ascii :=
  let n := nat_of_ascii c in
  if (65 <=? n)%nat && (n <=? 90)%nat then ascii_of_nat (n + 32) else c.

Fixpoint lower (s : string) : string :=
  match s with
  | EmptyString => EmptyString
  | String c s' => String (lower_ascii c) (lower s')
  end.

(** [s.replace(a, b)] for one-character [a] and [b]. *)
Fixpoint replace_char (a b : ascii) (s : string) : string :=
  match s with
  | EmptyString => EmptyString
  | String c s' =>
      String (if Ascii.eqb c a then b else c) (replace_char a b s')
  end.

(** [sep.join(ls)] is [String.concat sep ls]. *)
Definition join (sep : string) (ls : list string) : string :=
  String.concat sep ls.

(** [str.strip()]: the whitespace characters are space, tab, line feed,
    vertical tab, form feed and carriage return. *)
Definition is_space (c : ascii) : bool :=
  let n := nat_of_ascii c in
  (n =? 32)%nat || ((9 <=? n)%nat && (n <=? 13)%nat).

Fixpoint lstrip (s : string) : string :=
  match s with
  | EmptyString => EmptyString
  | String c s' => if is_space c then lstrip s' else s
  end.

Fixpoint rstrip (s : string) : string :=
  match s with
  | EmptyString => EmptyString
  | String c s' =>
      match rstrip s' with
      | EmptyString => if is_space c then EmptyString else String c EmptyString
      | r => String c r
      end
  end.

Definition strip (s : string) : string := rstrip (lstrip s).

(** [s.partition(sep)] for a one-character [sep]: the text before the
    first [sep], the separator found, the text after it. *)
Fixpoint partition (sep : ascii) (s : string) : string * string * string :=
  match s with
  | EmptyString => (EmptyString, EmptyString, EmptyString)
  | String c s' =>
      if Ascii.eqb c sep then (EmptyString, String sep EmptyString, s')
      else
        let '(head, found, tail) := partition sep s' in
        (String c head, found, tail)
  end.

(** [int(s)] in base 10: surrounding whitespace, an optional sign, then
    decimal digits, single underscores allowed between digits.  [None]
    stands for [ValueError]. *)
Definition digit_of (c : ascii) : option Z :=
  let n := nat_of_ascii c in
  if (48 <=? n)%nat && (n <=? 57)%nat then Some (Z.of_nat n - 48) else None.

Fixpoint digits (acc : Z) (after_digit : bool) (s : string) : option Z :=
  match s with
  | EmptyString => if after_digit then Some acc else None
  | String c s' =>
      match digit_of c with
      | Some d => digits (10 * acc + d) true s'
      | None =>
          if Ascii.eqb c "_" && after_digit then digits acc false s'
          else None
      end
  end.

Definition int (s : string) : option Z :=
  match strip s with
  | String "-" s' => Z.opp <$> digits 0 false s'
  | String "+" s' => digits 0 false s'
  | s' => digits 0 false s'
  end.

(** [b.decode("ascii")]: [None] stands for [UnicodeError]. *)
Definition decode_ascii (b : string) : option string :=
  if forallb (fun c => (nat_of_ascii c <? 128)%nat) (list_ascii_of_string b)
  then Some b else None.

(** [sorted] on strings: code-point lexicographic order. *)
Definition str_le (a b : string) : Prop := String.leb a b = true.

#[export] Instance str_le_dec a b : Decision (str_le a b).
Proof. unfold str_le. apply _. Defined.

Definition sorted (s : gset string) : list string :=
  merge_sort str_le (elements s).

End Py.

(** ** [datetime.date] *)

Module Date.

(** A date is the integer [toordinal()] gives. *)
Abbreviation date := Z (only parsing).

(** [date.weekday()]: Monday is 0, Sunday is 6. *)
Definition weekday (d : date) : Z := (d + 6) mod 7.

Definition is_leap (y : Z) : bool :=
  (y mod 4 =? 0) && (negb (y mod 100 =? 0) || (y mod 400 =? 0)).

Definition days_before_year (y : Z) : Z :=
  let y := y - 1 in y * 365 + y / 4 - y / 100 + y / 400.

Definition days_in_month (y m : Z) : Z :=
  if m =? 2 then (if is_leap y then 29 else 28)
  else if (m =? 4) || (m =? 6) || (m =? 9) || (m =? 11) then 30 else 31.

Fixpoint days_before_month_aux (y : Z) (months : nat) : Z :=
  match months with
  | O => 0
  | S k => days_before_month_aux y k + days_in_month y (Z.of_nat (S k))
  end.

Definition days_before_month (y m : Z) : Z :=
  days_before_month_aux y (Z.to_nat (m - 1)).

(** [date(y, m, d).toordinal()]. *)
Definition ymd2ord (y m d : Z) : date :=
  days_before_year y + days_before_month y m + d.

(** [strftime("%A")] in the C locale. *)
Definition DAY_NAMES : list string :=
  ["Monday"; "Tuesday"; "Wednesday"; "Thursday"; "Friday"; "Saturday";
   "Sunday"]%string.

Definition strftime_A (d : date) : string :=
  nth (Z.to_nat (weekday d)) DAY_NAMES EmptyString.

End Date.

(** ** The server: [bin_server.py] *)

Module Server.
Import Py Date.

Inductive exn : Type :=
| DateInPastError
| KeyError (key : string).

Inductive result (A : Type) : Type :=
| Ok (a : A)
| Raise (e : exn).
Arguments Ok {A} a.
Arguments Raise {A} e.

Definition bind {A B} (r : result A) (k : A -> result B) : result B :=
  match r with
  | Ok a => k a
  | Raise e => Raise e
  end.

Notation "'let*' x ':=' r 'in' k" := (bind r (fun x => k))
  (at level 10, x name, r at level 100, k at level 200).

#[export] Instance exn_eq_dec : EqDecision exn.
Proof. solve_decision. Defined.

#[export] Instance result_eq_dec {A} `{EqDecision A} : EqDecision (result A).
Proof. solve_decision. Defined.

Definition BIN_COLOURS : gset string :=
  {[ "black"; "blue"; "brown"; "green" ]}%string.

(** [relative_date(now, then)]. *)
Definition relative_date (now then_ : date) : result string :=
  if then_ <? now then Raise DateInPastError
  else if then_ =? now then Ok "today"%string
  else
    let delta := then_ - now in
    if delta =? 1 then Ok "tomorrow"%string
    else if delta <? 7 then Ok (lower (strftime_A then_))
    else
      let delta := delta + weekday now in
      if (7 <=? delta) && (delta <? 14) then Ok "next week"%string
      else if (14 <=? delta) && (delta <? 21) then Ok "week after next"%string
      else if (21 <=? delta) && (delta <? 28) then Ok "three weeks"%string
      else if (28 <=? delta) && (delta <? 35) then Ok "four weeks"%string
      else Ok "very long time"%string.

(** The body of [for bin_colour in sorted(BIN_COLOURS)], with the list
    [enabled_selectors] it appends to threaded through. *)
Fixpoint for_bin_colour (bins : gmap string date) (now : date)
    (colours : list string) (enabled_selectors : list string)
    : result (list string) :=
  match colours with
  | [] => Ok enabled_selectors
  | bin_colour :: colours' =>
      let* then_ :=
        match bins !! bin_colour with
        | Some d => Ok d
        | None => Raise (KeyError bin_colour)
        end in
      let* label := relative_date now then_ in
      let when := replace_char " " "-" label in
      let enabled_selectors :=
        enabled_selectors ++ ["." +:+ bin_colour +:+ "." +:+ when] in
      let enabled_selectors :=
        if String.eqb when "tomorrow"
        then enabled_selectors ++ ["." +:+ bin_colour +:+ ".selected"]
        else enabled_selectors in
      let enabled_selectors :=
        if String.eqb when "tomorrow" || String.eqb when "today"
        then enabled_selectors ++ ["." +:+ bin_colour +:+ ".open"]
        else enabled_selectors ++ ["." +:+ bin_colour +:+ ".closed"] in
      for_bin_colour bins now colours' enabled_selectors
  end.

(** The list [enabled_selectors] as it stands after the loop. *)
Definition enabled_selectors (bins : gmap string date) (now : date)
    : result (list string) :=
  for_bin_colour bins now (sorted BIN_COLOURS) [].

(** The four actions, joined by line feeds. *)
Definition actions_of (enabled_selectors : list string) : string :=
  join nl
    [ "select-by-selector: .variable;";
      "selection-hide;";
      "select-by-selector:" +:+ nl +:+ "      "
        +:+ join (nl +:+ "    , ") enabled_selectors
        +:+ nl +:+ "    ;";
      "selection-unhide;" ].

(** [ui_inkscape_actions(bins, now)]. *)
Definition ui_inkscape_actions (bins : gmap string date) (now : date)
    : result string :=
  let* enabled_selectors := enabled_selectors bins now in
  Ok (actions_of enabled_selectors).

(** The [while True] loop of [get_next_update]: [None] when [fuel]
    iterations did not reach the [break]. *)
Fixpoint scan (fuel : nat) (bins : gmap string date) (actions : string)
    (now : date) : option (result date) :=
  match fuel with
  | O => None
  | S fuel' =>
      let now := now + 1 in
      match ui_inkscape_actions bins now with
      | Ok actions' =>
          if String.eqb actions actions'
          then scan fuel' bins actions now
          else Some (Ok now)
      | Raise DateInPastError => Some (Ok now)
      | Raise e => Some (Raise e)
      end
  end.

(** [get_next_update(bins, now)]. *)
Definition get_next_update (fuel : nat) (bins : gmap string date)
    (now : date) : option (result date) :=
  match ui_inkscape_actions bins now with
  | Ok actions => scan fuel bins actions now
  | Raise e => Some (Raise e)
  end.

End Server.

(** ** The firmware: [main.py] *)

Module Firmware.
Import Py.

(** An exception: [type(exc).__name__], [str(exc)], and whether it is an
    instance of [Exception] (a [KeyboardInterrupt] is not). *)
Record exn : Type := Exn {
  exn_type : string;
  exn_msg : string;
  is_Exception : bool
}.

(** What a computation comes to: a value, an exception, or the end of the
    finite run that the model was given while the program is still going. *)
Inductive outcome (A : Type) : Type :=
| Returns (a : A)
| Raises (e : exn)
| OutOfFuel.
Arguments Returns {A} a.
Arguments Raises {A} e.
Arguments OutOfFuel {A}.

(** The calls the device makes, in order. *)
Inductive action : Type :=
| Connect
| Get
| ShowPng (content : string)
| ShowError (type_name message : string)
| SleepFor (minutes : Z).

(** A computation: the calls it made and what it came to. *)
Definition M (A : Type) : Type := list action * outcome A.

Definition ret {A} (a : A) : M A := ([], Returns a).
Definition raise {A} (e : exn) : M A := ([], Raises e).

Definition bind {A B} (m : M A) (k : A -> M B) : M B :=
  match m with
  | (t, Returns a) => let '(t', r) := k a in (t ++ t', r)
  | (t, Raises e) => (t, Raises e)
  | (t, OutOfFuel) => (t, OutOfFuel)
  end.

Notation "x <- m ;; k" := (bind m (fun x => k))
  (at level 90, m at next level, right associativity).
Notation "m ;;; k" := (bind m (fun _ => k))
  (at level 90, right associativity).

(** [try: m except Exception as exc: h exc]. *)
Definition try_except {A} (m : M A) (h : exn -> M A) : M A :=
  match m with
  | (t, Raises e) =>
      if is_Exception e then let '(t', r) := h e in (t ++ t', r)
      else (t, Raises e)
  | _ => m
  end.

(** [try: m finally: fin]. *)
Definition try_finally {A} (m : M A) (fin : M unit) : M A :=
  match m with
  | (t, OutOfFuel) => (t, OutOfFuel)
  | (t, Returns a) => let '(t', r) := fin in
      (t ++ t', match r with
                | Returns _ => Returns a
                | Raises e' => Raises e'
                | OutOfFuel => OutOfFuel
                end)
  | (t, Raises e) => let '(t', r) := fin in
      (t ++ t', match r with
                | Returns _ => Raises e
                | Raises e' => Raises e'
                | OutOfFuel => OutOfFuel
                end)
  end.

(** A call to a collaborator that returns nothing: it is made, and it
    raises when the environment says so. *)
Definition call (a : action) (r : option exn) : M unit :=
  ([a], match r with None => Returns tt | Some e => Raises e end).

Record response : Type := Response {
  status_code : Z;
  content : string;
  headers : list string
}.

(** What the collaborators answer during one cycle. *)
Record cycle_env : Type := CycleEnv {
  connect_result : option exn;      (* badger.connect() *)
  get_result : exn + response;      (* mrequests.get(...) *)
  show_png_result : option exn;     (* PNG(...), open_RAM, decode, update *)
  show_error_result : option exn;   (* print_exception and the text calls *)
  sleep_result : option exn         (* sleep_for(next_update_minutes) *)
}.

Definition ValueError : exn :=
  Exn "ValueError" "invalid syntax for integer with base 10" true.
Definition UnicodeError : exn := Exn "UnicodeError" EmptyString true.

(** The [for header_bytes in r.headers: ... else: ...] loop. *)
Fixpoint for_header_bytes (headers : list string) : M Z :=
  match headers with
  | [] => ret (24 * 60)
  | header_bytes :: headers' =>
      match decode_ascii header_bytes with
      | None => raise UnicodeError
      | Some s =>
          let '(key, _, value) := partition ":" s in
          if String.eqb (strip (lower key)) (lower "X-Next-Update")
          then
            match int (strip value) with
            | None => raise ValueError
            | Some n => ret (n / 60)
            end
          else for_header_bytes headers'
      end
  end.

(** The body of the inner [try]. *)
Definition try_body (env : cycle_env) : M (Z * Z) :=
  r <- ([Get], match get_result env with
               | inl e => Raises e
               | inr r => Returns r
               end) ;;
  (if status_code r =? 200 then ret tt
   else raise (Exn "Exception"
                   ("Status " +:+ pretty.pretty (status_code r) +:+ "!")
                   true)) ;;;
  call (ShowPng (content r)) (show_png_result env) ;;;
  next_update_minutes <- for_header_bytes (headers r) ;;
  ret (next_update_minutes, 1).

(** The [except Exception as exc] handler. *)
Definition handler (env : cycle_env) (exp_backoff_minutes : Z) (exc : exn)
    : M (Z * Z) :=
  call (ShowError (exn_type exc) (exn_msg exc)) (show_error_result env) ;;;
  ret (exp_backoff_minutes, Z.min (24 * 60) (exp_backoff_minutes * 2)).

(** One turn of the [while True] loop; it returns the new value of
    [exp_backoff_minutes]. *)
Definition cycle (env : cycle_env) (exp_backoff_minutes : Z) : M Z :=
  call Connect (connect_result env) ;;;
  p <- try_except (try_body env) (handler env exp_backoff_minutes) ;;
  let '(next_update_minutes, exp_backoff_minutes) := p in
  call (SleepFor next_update_minutes) (sleep_result env) ;;;
  ret exp_backoff_minutes.

(** The [while True] loop, run against the answers of finitely many
    cycles; it has no [break] and no [return]. *)
Fixpoint while_true (envs : list cycle_env) (exp_backoff_minutes : Z)
    : M Empty_set :=
  match envs with
  | [] => ([], OutOfFuel)
  | env :: envs' =>
      exp_backoff_minutes <- cycle env exp_backoff_minutes ;;
      while_true envs' exp_backoff_minutes
  end.

(** The program: the loop inside [try: ... finally: sleep_for(24 * 60)]. *)
Definition main (envs : list cycle_env) (final_sleep_result : option exn)
    : M Empty_set :=
  try_finally (while_true envs 1)
              (call (SleepFor (24 * 60)) final_sleep_result).

(** The value of [exp_backoff_minutes] at the top of the loop after the
    cycles [envs], when none of them let an exception escape. *)
Fixpoint backoff_after (envs : list cycle_env) (exp_backoff_minutes : Z)
    : option Z :=
  match envs with
  | [] => Some exp_backoff_minutes
  | env :: envs' =>
      match snd (cycle env exp_backoff_minutes) with
      | Returns b => backoff_after envs' b
      | _ => None
      end
  end.

End Firmware.

(** * Properties of the server *)

Module ServerSpec.
Import Py Date Server.
Local Open Scope string_scope.
Local Open Scope list_scope.

(** Turn boolean comparisons in the context into propositions. *)
Ltac zbool :=
  repeat match goal with
  | H : (_ <? _) = true |- _ => apply Z.ltb_lt in H
  | H : (_ <? _) = false |- _ => apply Z.ltb_ge in H
  | H : (_ =? _) = true |- _ => apply Z.eqb_eq in H
  | H : (_ =? _) = false |- _ => apply Z.eqb_neq in H
  | H : (_ <=? _) = true |- _ => apply Z.leb_le in H
  | H : (_ <=? _) = false |- _ => apply Z.leb_gt in H
  | H : _ && _ = true |- _ => apply andb_true_iff in H; destruct H
  | H : _ && _ = false |- _ => apply andb_false_iff in H; destruct H
  end.

(** Split on the tests of the innermost [if]s of the goal. *)
Ltac split_ifs :=
  repeat match goal with
  | |- context [if ?b then _ else _] => destruct b eqn:?
  end; zbool.

Lemma weekday_range d : 0 <= weekday d <= 6.
Proof.
  unfold weekday. pose proof (Z.mod_pos_bound (d + 6) 7). lia.
Qed.

Lemma weekday_cases d :
  weekday d = 0 \/ weekday d = 1 \/ weekday d = 2 \/ weekday d = 3 \/
  weekday d = 4 \/ weekday d = 5 \/ weekday d = 6.
Proof. pose proof (weekday_range d). lia. Qed.

(** The lower-cased names of the days, Monday first. *)
Definition day_names : list string :=
  ["monday"; "tuesday"; "wednesday"; "thursday"; "friday"; "saturday";
   "sunday"].

Lemma lower_strftime_A d :
  lower (strftime_A d) = nth (Z.to_nat (weekday d)) day_names EmptyString.
Proof.
  unfold strftime_A.
  destruct (weekday_cases d) as [H|[H|[H|[H|[H|[H|H]]]]]];
    rewrite H; reflexivity.
Qed.

(** C1.  The classifier raises [DateInPastError] exactly when the target is
    before the reference; otherwise it answers [today] for the same day,
    [tomorrow] for the next day, the lower-cased name of the target's
    weekday for 2 to 6 days ahead, and from 7 days on it buckets the delta
    plus the reference's weekday index (Monday 0 to Sunday 6) into
    [next week] on [7,14), [week after next] on [14,21), [three weeks] on
    [21,28), [four weeks] on [28,35) and [very long time] beyond. *)
Theorem relative_date_classifies (now then_ : date) :
  (relative_date now then_ = Raise DateInPastError <-> then_ < now) /\
  (then_ = now -> relative_date now then_ = Ok "today") /\
  (then_ - now = 1 -> relative_date now then_ = Ok "tomorrow") /\
  (2 <= then_ - now <= 6 ->
     relative_date now then_
     = Ok (nth (Z.to_nat (weekday then_)) day_names EmptyString)) /\
  (7 <= then_ - now ->
     0 <= weekday now <= 6 /\
     let adjusted := then_ - now + weekday now in
     (7 <= adjusted < 14 -> relative_date now then_ = Ok "next week") /\
     (14 <= adjusted < 21 ->
        relative_date now then_ = Ok "week after next") /\
     (21 <= adjusted < 28 -> relative_date now then_ = Ok "three weeks") /\
     (28 <= adjusted < 35 -> relative_date now then_ = Ok "four weeks") /\
     (~ 7 <= adjusted < 35 ->
        relative_date now then_ = Ok "very long time")).
Proof.
  pose proof (weekday_range now) as Hw.
  unfold relative_date. rewrite <- lower_strftime_A.
  repeat split; intros;
    try match goal with H : _ = Raise _ |- _ => revert H end;
    split_ifs; intros; try reflexivity; try discriminate; try lia.
Qed.

(** *** The selector builder *)

(** Every answer of the classifier. *)
Definition LABELS : list string :=
  ["today"; "tomorrow"] ++ day_names
  ++ ["next week"; "week after next"; "three weeks"; "four weeks";
      "very long time"].

Lemma relative_date_LABELS now then_ label :
  relative_date now then_ = Ok label -> In label LABELS.
Proof.
  unfold relative_date. rewrite lower_strftime_A.
  split_ifs; intros [= <-];
    try (destruct (weekday_cases then_) as [H|[H|[H|[H|[H|[H|H]]]]]];
         rewrite H);
    simpl; tauto.
Qed.

Lemma relative_date_Ok now then_ :
  now <= then_ -> exists label, relative_date now then_ = Ok label.
Proof.
  intros H. unfold relative_date. split_ifs; eauto; lia.
Qed.

Lemma relative_date_Raise now then_ e :
  relative_date now then_ = Raise e -> e = DateInPastError /\ then_ < now.
Proof.
  unfold relative_date. split_ifs; intros [= <-]. split; [reflexivity|lia].
Qed.

Lemma relative_date_past now then_ :
  then_ < now -> relative_date now then_ = Raise DateInPastError.
Proof.
  intros H. unfold relative_date. split_ifs; first [reflexivity|lia].
Qed.

Lemma relative_date_today now then_ :
  relative_date now then_ = Ok "today" <-> then_ = now.
Proof.
  split;
    [|intros ->; unfold relative_date; split_ifs; first [reflexivity|lia]].
  unfold relative_date. rewrite lower_strftime_A.
  split_ifs; intros E; try lia; try discriminate E.
  destruct (weekday_cases then_) as [H|[H|[H|[H|[H|[H|H]]]]]];
    rewrite H in E; discriminate.
Qed.

(** The selectors one category contributes, as the loop body appends
    them. *)
Definition group (bin_colour label : string) : list string :=
  let when := replace_char " " "-" label in
  ["." +:+ bin_colour +:+ "." +:+ when]
  ++ (if String.eqb when "tomorrow"
      then ["." +:+ bin_colour +:+ ".selected"] else [])
  ++ [if String.eqb when "tomorrow" || String.eqb when "today"
      then "." +:+ bin_colour +:+ ".open"
      else "." +:+ bin_colour +:+ ".closed"].

Lemma for_bin_colour_cons bins now c cs acc :
  for_bin_colour bins now (c :: cs) acc
  = match bins !! c with
    | None => Raise (KeyError c)
    | Some d =>
        match relative_date now d with
        | Raise e => Raise e
        | Ok label => for_bin_colour bins now cs (acc ++ group c label)
        end
    end.
Proof.
  simpl. destruct (bins !! c) as [d|]; [|reflexivity]. simpl.
  destruct (relative_date now d) as [label|e]; [|reflexivity]. simpl.
  unfold group. f_equal.
  destruct (String.eqb _ "tomorrow"), (String.eqb _ "today"); simpl;
    rewrite <- ?app_assoc; reflexivity.
Qed.

(** The labels of the categories [cs], in order; the first failure wins. *)
Fixpoint labels (bins : gmap string date) (now : date) (cs : list string)
    : result (list string) :=
  match cs with
  | [] => Ok []
  | c :: cs' =>
      match bins !! c with
      | None => Raise (KeyError c)
      | Some d =>
          let* label := relative_date now d in
          let* ls := labels bins now cs' in
          Ok (label :: ls)
      end
  end.

Definition groups (cs ls : list string) : list (list string) :=
  zip_with group cs ls.

Lemma for_bin_colour_labels bins now cs acc :
  for_bin_colour bins now cs acc
  = let* ls := labels bins now cs in Ok (acc ++ concat (groups cs ls)).
Proof.
  revert acc. induction cs as [|c cs IH]; intros acc.
  - simpl. now rewrite app_nil_r.
  - rewrite for_bin_colour_cons. simpl.
    destruct (bins !! c) as [d|]; [|reflexivity].
    destruct (relative_date now d) as [label|e]; [|reflexivity]. simpl.
    rewrite IH. destruct (labels bins now cs) as [ls|e]; [|reflexivity].
    simpl. now rewrite <- app_assoc.
Qed.

Lemma ui_inkscape_actions_labels bins now :
  ui_inkscape_actions bins now
  = let* ls := labels bins now (sorted BIN_COLOURS) in
    Ok (actions_of (concat (groups (sorted BIN_COLOURS) ls))).
Proof.
  unfold ui_inkscape_actions, enabled_selectors.
  rewrite for_bin_colour_labels.
  now destruct (labels bins now (sorted BIN_COLOURS)).
Qed.

Lemma sorted_BIN_COLOURS :
  sorted BIN_COLOURS = ["black"; "blue"; "brown"; "green"].
Proof. vm_compute. reflexivity. Qed.

Lemma elem_of_sorted_BIN_COLOURS c :
  c ∈ sorted BIN_COLOURS <-> c ∈ BIN_COLOURS.
Proof.
  unfold sorted. rewrite merge_sort_Permutation. apply elem_of_elements.
Qed.

Lemma labels_ext bins bins' now cs :
  (forall c, c ∈ cs -> bins !! c = bins' !! c) ->
  labels bins now cs = labels bins' now cs.
Proof.
  induction cs as [|c cs IH]; intros H; [reflexivity|].
  cbn [labels]. rewrite (H c) by left.
  rewrite IH; [reflexivity|]. intros c' Hc'. apply H. now right.
Qed.

Lemma labels_Ok bins now cs :
  (forall c, c ∈ cs -> exists d, bins !! c = Some d /\ now <= d) ->
  exists ls, labels bins now cs = Ok ls /\
    Forall2 (fun c label => exists d,
               bins !! c = Some d /\ relative_date now d = Ok label) cs ls.
Proof.
  induction cs as [|c cs IH]; intros H.
  - exists []. split; [reflexivity|constructor].
  - destruct (H c) as (d & Hd & Hle); [left|].
    destruct IH as (ls & Hls & Hall).
    { intros c' Hc'. apply H. now right. }
    destruct (relative_date_Ok now d Hle) as [label Hlabel].
    exists (label :: ls). cbn [labels]. rewrite Hd, Hlabel. cbn [bind].
    rewrite Hls.
    split; [reflexivity|]. constructor; eauto.
Qed.

Lemma labels_Ok_inv bins now cs ls :
  labels bins now cs = Ok ls ->
  Forall2 (fun c label => exists d,
             bins !! c = Some d /\ now <= d /\
             relative_date now d = Ok label) cs ls.
Proof.
  revert ls. induction cs as [|c cs IH]; intros ls; simpl.
  - intros [= <-]. constructor.
  - destruct (bins !! c) as [d|] eqn:Hd; [|discriminate].
    destruct (relative_date now d) as [label|e] eqn:Hl; [|discriminate].
    simpl. destruct (labels bins now cs) as [ls'|e]; [|discriminate].
    intros [= <-]. constructor; [|now apply IH].
    exists d. repeat split; auto.
    destruct (Z.lt_ge_cases d now) as [Hlt|]; [|assumption].
    rewrite (relative_date_past _ _ Hlt) in Hl. discriminate.
Qed.

Lemma labels_Raise bins now cs e :
  labels bins now cs = Raise e ->
  (e = DateInPastError /\
     exists c d, c ∈ cs /\ bins !! c = Some d /\ d < now) \/
  (exists c, c ∈ cs /\ bins !! c = None /\ e = KeyError c).
Proof.
  induction cs as [|c cs IH]; simpl; [discriminate|].
  destruct (bins !! c) as [d|] eqn:Hd.
  - destruct (relative_date now d) as [label|e'] eqn:Hl; simpl.
    + destruct (labels bins now cs) as [ls|e']; [discriminate|].
      intros [= ->]. destruct IH as [(-> & c' & d' & ? & ? & ?)|(c' & ? & ? & ?)];
        [reflexivity| |].
      * left. split; [reflexivity|]. exists c', d'. split; [now right|auto].
      * right. exists c'. split; [now right|auto].
    + intros [= ->]. apply relative_date_Raise in Hl as [-> Hlt].
      left. split; [reflexivity|]. exists c, d. split; [left|auto].
  - intros [= <-]. right. exists c. split; [left|auto].
Qed.

Lemma dash_tomorrow label :
  In label LABELS ->
  String.eqb (replace_char " " "-" label) "tomorrow"
  = bool_decide (label = "tomorrow").
Proof.
  intros H. simpl in H.
  repeat (destruct H as [<-|H]; [reflexivity|]). destruct H.
Qed.

Lemma dash_today label :
  In label LABELS ->
  String.eqb (replace_char " " "-" label) "today"
  = bool_decide (label = "today").
Proof.
  intros H. simpl in H.
  repeat (destruct H as [<-|H]; [reflexivity|]). destruct H.
Qed.

Lemma str_le_sorted_BIN_COLOURS : StronglySorted str_le (sorted BIN_COLOURS).
Proof.
  rewrite sorted_BIN_COLOURS.
  repeat (constructor; [|repeat constructor; reflexivity]). constructor.
Qed.

(** C6.  With the four categories present and no event before the
    reference date, the builder emits one group per category, the
    categories in lexicographic order of their names; a group is the base
    selector of the category and its label (spaces as dashes), then a
    [selected] selector exactly when the label is [tomorrow], then an [open]
    selector when the label is [today] or [tomorrow] and a [closed] one
    otherwise. *)
Theorem enabled_selectors_groups (bins : gmap string date) (now : date) :
  (forall c, c ∈ BIN_COLOURS ->
     exists d, bins !! c = Some d /\ now <= d) ->
  exists colours gs,
    colours = ["black"; "blue"; "brown"; "green"] /\
    colours = sorted BIN_COLOURS /\
    StronglySorted str_le colours /\
    (forall c, c ∈ colours <-> c ∈ BIN_COLOURS) /\
    enabled_selectors bins now = Ok (concat gs) /\
    Forall2
      (fun c g => exists d label,
         bins !! c = Some d /\ relative_date now d = Ok label /\
         g = ["." +:+ c +:+ "." +:+ replace_char " " "-" label]
             ++ (if bool_decide (label = "tomorrow")
                 then ["." +:+ c +:+ ".selected"] else [])
             ++ [if bool_decide (label = "today" \/ label = "tomorrow")
                 then "." +:+ c +:+ ".open"
                 else "." +:+ c +:+ ".closed"])
      colours gs.
Proof.
  intros H.
  destruct (labels_Ok bins now (sorted BIN_COLOURS)) as (ls & Hls & Hall).
  { intros c Hc. apply H. now apply elem_of_sorted_BIN_COLOURS. }
  exists (sorted BIN_COLOURS), (groups (sorted BIN_COLOURS) ls).
  split; [apply sorted_BIN_COLOURS|]. split; [reflexivity|].
  split; [apply str_le_sorted_BIN_COLOURS|].
  split; [apply elem_of_sorted_BIN_COLOURS|].
  split.
  - unfold enabled_selectors. rewrite for_bin_colour_labels, Hls.
    reflexivity.
  - unfold groups. clear Hls H.
    induction Hall as [|c label cs ls' (d & Hd & Hl) _ IH];
      [constructor|].
    cbn [zip_with]. constructor; [|exact IH].
    exists d, label. split; [exact Hd|]. split; [exact Hl|].
    pose proof (relative_date_LABELS _ _ _ Hl) as Hin.
    unfold group. rewrite (dash_tomorrow _ Hin), (dash_today _ Hin).
    do 2 f_equal. f_equal.
    repeat case_bool_decide; try reflexivity; intuition congruence.
Qed.

(** Event mappings for the examples: the four categories on one day, and
    the same with a fifth category. *)
Definition same_day_bins (d : date) : gmap string date :=
  {[ "black" := d; "blue" := d; "brown" := d; "green" := d ]}.

Definition five_bins (d : date) : gmap string date :=
  <[ "red" := d ]> (same_day_bins d).

Lemma enabled_selectors_groups_witness :
  exists colours gs,
    colours = ["black"; "blue"; "brown"; "green"] /\
    colours = sorted BIN_COLOURS /\
    StronglySorted str_le colours /\
    (forall c, c ∈ colours <-> c ∈ BIN_COLOURS) /\
    enabled_selectors (same_day_bins 730122) 730121 = Ok (concat gs) /\
    Forall2
      (fun c g => exists d label,
         same_day_bins 730122 !! c = Some d /\
         relative_date 730121 d = Ok label /\
         g = ["." +:+ c +:+ "." +:+ replace_char " " "-" label]
             ++ (if bool_decide (label = "tomorrow")
                 then ["." +:+ c +:+ ".selected"] else [])
             ++ [if bool_decide (label = "today" \/ label = "tomorrow")
                 then "." +:+ c +:+ ".open"
                 else "." +:+ c +:+ ".closed"])
      colours gs.
Proof.
  apply (enabled_selectors_groups (same_day_bins 730122) 730121).
  intros c Hc. exists 730122. split; [|lia].
  apply elem_of_sorted_BIN_COLOURS in Hc. rewrite sorted_BIN_COLOURS in Hc.
  repeat (apply elem_of_cons in Hc as [->|Hc]; [reflexivity|]).
  now apply elem_of_nil in Hc.
Defined.

(** C5, as the code has it.  The builder does not check the key set of the
    mapping.  It looks up the four categories and nothing else: two
    mappings that agree on the four categories give the same outcome, so
    extra categories are ignored; and when one of the four is missing the
    builder fails and builds nothing, with the [KeyError] of a missing
    category or, when a category before it in the order has a date before
    the reference date, with [DateInPastError]. *)
Theorem ui_inkscape_actions_reads_four_categories :
  (forall (bins bins' : gmap string date) (now : date),
     (forall c, c ∈ BIN_COLOURS -> bins !! c = bins' !! c) ->
     ui_inkscape_actions bins now = ui_inkscape_actions bins' now) /\
  (forall (bins : gmap string date) (now : date),
     ~ BIN_COLOURS ⊆ dom bins ->
     exists e, ui_inkscape_actions bins now = Raise e /\
       (e = DateInPastError \/
        exists c, c ∈ BIN_COLOURS /\ bins !! c = None /\ e = KeyError c)).
Proof.
  split.
  - intros bins bins' now H. rewrite !ui_inkscape_actions_labels.
    rewrite (labels_ext bins bins'); [reflexivity|].
    intros c Hc. apply H. now apply elem_of_sorted_BIN_COLOURS.
  - intros bins now Hdom. rewrite ui_inkscape_actions_labels.
    destruct (labels bins now (sorted BIN_COLOURS)) as [ls|e] eqn:Hls.
    + exfalso. apply Hdom. intros c Hc.
      apply elem_of_sorted_BIN_COLOURS in Hc.
      apply labels_Ok_inv in Hls.
      apply list_elem_of_lookup in Hc as [i Hi].
      destruct (Forall2_lookup_l _ _ _ _ _ Hls Hi) as (l & _ & d & Hd & _).
      apply elem_of_dom. eauto.
    + exists e. split; [reflexivity|].
      apply labels_Raise in Hls as [[-> _]|(c & Hc & Hn & ->)];
        [now left|right].
      exists c. split; [now apply elem_of_sorted_BIN_COLOURS|auto].
Qed.

(** C5 fails as stated: a mapping with a fifth category is accepted and
    rendered, and a mapping without [green] fails with [KeyError], the only
    error besides [DateInPastError] the builder has. *)
Lemma extra_category_is_tolerated :
  dom (five_bins 730122) <> BIN_COLOURS /\
  ui_inkscape_actions (five_bins 730122) 730121
  = ui_inkscape_actions (same_day_bins 730122) 730121 /\
  (exists actions,
     ui_inkscape_actions (five_bins 730122) 730121 = Ok actions) /\
  ui_inkscape_actions (delete "green" (same_day_bins 730122)) 730121
  = Raise (KeyError "green").
Proof.
  split; [|split; [|split]].
  - intros H. assert (Hred : "red" ∈ dom (five_bins 730122)).
    { apply elem_of_dom. eexists. reflexivity. }
    rewrite H in Hred. revert Hred. vm_compute. intros Hred.
    discriminate Hred.
  - vm_compute. reflexivity.
  - eexists. vm_compute. reflexivity.
  - vm_compute. reflexivity.
Qed.

(** *** The rendered actions determine the labels *)

Definition nl_char : ascii := ascii_of_nat 10.

Fixpoint nl_free (s : string) : bool :=
  match s with
  | EmptyString => true
  | String c s' => negb (Ascii.eqb c nl_char) && nl_free s'
  end.

Lemma append_assoc (a b c : string) : (a +:+ b) +:+ c = a +:+ (b +:+ c).
Proof.
  induction a as [|x a IH]; [reflexivity|].
  change (String x ((a +:+ b) +:+ c) = String x (a +:+ (b +:+ c))).
  now rewrite IH.
Qed.

Lemma append_inv_head (p x y : string) : p +:+ x = p +:+ y -> x = y.
Proof.
  induction p as [|c p IH]; [auto|].
  change (String c (p +:+ x) = String c (p +:+ y) -> x = y).
  intros [= E]. auto.
Qed.

(** Two line-feed-free texts followed by a line feed: the first line feed
    of the whole marks where each ends. *)
Lemma cut_at_nl (x y r r' : string) :
  nl_free x = true -> nl_free y = true ->
  x +:+ String nl_char r = y +:+ String nl_char r' -> x = y /\ r = r'.
Proof.
  revert y. induction x as [|a x IH]; intros [|b y]; cbn [append nl_free].
  - intros _ _ [= ->]. auto.
  - intros _ Hy [= <- _]. rewrite Ascii.eqb_refl in Hy. discriminate.
  - intros Hx _ [= -> _]. rewrite Ascii.eqb_refl in Hx. discriminate.
  - intros Hx Hy [= -> E].
    apply andb_true_iff in Hx as [_ Hx]. apply andb_true_iff in Hy as [_ Hy].
    destruct (IH y Hx Hy E) as [-> ->]. auto.
Qed.

Definition SEP : string := nl +:+ "    , ".
Definition HEAD : string :=
  "select-by-selector: .variable;" +:+ nl +:+ "selection-hide;" +:+ nl
  +:+ "select-by-selector:" +:+ nl +:+ "      ".
Definition TAIL : string := nl +:+ "    ;" +:+ nl +:+ "selection-unhide;".

Lemma actions_of_eq l : actions_of l = HEAD +:+ (join SEP l +:+ TAIL).
Proof.
  unfold actions_of, HEAD, TAIL. fold SEP.
  generalize (join SEP l). intros j.
  cbn [join String.concat]. rewrite !append_assoc. reflexivity.
Qed.

Lemma join_cons2 sep x y l :
  join sep (x :: y :: l) = x +:+ sep +:+ join sep (y :: l).
Proof. reflexivity. Qed.

Lemma join_TAIL_inj l l' :
  l <> [] -> l' <> [] ->
  Forall (fun s => nl_free s = true) l ->
  Forall (fun s => nl_free s = true) l' ->
  join SEP l +:+ TAIL = join SEP l' +:+ TAIL -> l = l'.
Proof.
  revert l'. induction l as [|x l IH]; intros l' Hl Hl' Hf Hf' E;
    [congruence|].
  destruct l' as [|y l']; [congruence|].
  apply Forall_cons in Hf as [Hx Hf]. apply Forall_cons in Hf' as [Hy Hf'].
  destruct l as [|x2 l], l' as [|y2 l'].
  - cbn [join String.concat] in E. unfold TAIL, nl in E. simpl in E.
    apply cut_at_nl in E as [-> _]; auto.
  - rewrite join_cons2 in E. cbn [join String.concat] in E.
    rewrite !append_assoc in E. unfold TAIL, SEP, nl in E.
    cbn [append] in E. fold nl_char in E.
    apply cut_at_nl in E as [_ E]; auto. discriminate E.
  - rewrite join_cons2 in E. cbn [join String.concat] in E.
    rewrite !append_assoc in E. unfold TAIL, SEP, nl in E.
    cbn [append] in E. fold nl_char in E.
    apply cut_at_nl in E as [_ E]; auto. discriminate E.
  - rewrite !join_cons2, !append_assoc in E. unfold SEP at 1 3 in E.
    unfold nl in E. cbn [append] in E. fold nl_char in E.
    apply cut_at_nl in E as [-> E]; auto.
    apply (append_inv_head "    , ") in E.
    f_equal. apply IH; auto; discriminate.
Qed.

Lemma actions_of_inj l l' :
  l <> [] -> l' <> [] ->
  Forall (fun s => nl_free s = true) l ->
  Forall (fun s => nl_free s = true) l' ->
  actions_of l = actions_of l' -> l = l'.
Proof.
  intros Hl Hl' Hf Hf'. rewrite !actions_of_eq. intros E.
  apply append_inv_head in E. now apply join_TAIL_inj.
Qed.

Lemma dash_inj w w' :
  In w LABELS -> In w' LABELS ->
  replace_char " " "-" w = replace_char " " "-" w' -> w = w'.
Proof.
  assert (forallb (fun a => forallb (fun b =>
            implb (String.eqb (replace_char " " "-" a)
                              (replace_char " " "-" b))
                  (String.eqb a b)) LABELS) LABELS = true) as Hall
    by (vm_compute; reflexivity).
  intros H H' E.
  rewrite forallb_forall in Hall. specialize (Hall w H).
  rewrite forallb_forall in Hall. specialize (Hall w' H').
  rewrite E, String.eqb_refl in Hall. now apply String.eqb_eq.
Qed.

Lemma group_app_inj c w w' l l' :
  In w LABELS -> In w' LABELS ->
  group c w ++ l = group c w' ++ l' -> w = w' /\ l = l'.
Proof.
  intros H H' E.
  assert (w = w') as <-.
  { unfold group in E. cbn [app] in E. injection E as E _.
    do 3 apply append_inv_head in E. now apply dash_inj. }
  split; [reflexivity|]. now apply app_inv_head in E.
Qed.

Lemma groups_inj cs ls ls' :
  length ls = length cs -> length ls' = length cs ->
  Forall (fun w => In w LABELS) ls -> Forall (fun w => In w LABELS) ls' ->
  concat (groups cs ls) = concat (groups cs ls') -> ls = ls'.
Proof.
  unfold groups. revert ls ls'.
  induction cs as [|c cs IH]; intros [|w ls] [|w' ls']; cbn [length];
    try discriminate; [reflexivity|].
  intros [= Hn] [= Hn'] Hf Hf'.
  apply Forall_cons in Hf as [Hw Hf]. apply Forall_cons in Hf' as [Hw' Hf'].
  cbn [zip_with concat]. intros E.
  apply group_app_inj in E as [-> E]; auto. f_equal. now apply IH.
Qed.

Lemma group_nl_free c w :
  c ∈ sorted BIN_COLOURS -> In w LABELS ->
  Forall (fun s => nl_free s = true) (group c w).
Proof.
  assert (forallb (fun a => forallb (fun b =>
            forallb nl_free (group a b)) LABELS) (sorted BIN_COLOURS)
          = true) as Hall
    by (vm_compute; reflexivity).
  intros Hc Hw. apply list_elem_of_In in Hc.
  rewrite forallb_forall in Hall. specialize (Hall c Hc).
  rewrite forallb_forall in Hall. specialize (Hall w Hw).
  rewrite forallb_forall in Hall.
  apply List.Forall_forall. exact Hall.
Qed.

Lemma groups_nl_free cs ls :
  cs ⊆ sorted BIN_COLOURS -> Forall (fun w => In w LABELS) ls ->
  Forall (fun s => nl_free s = true) (concat (groups cs ls)).
Proof.
  unfold groups. revert ls.
  induction cs as [|c cs IH]; intros [|w ls] Hcs Hf; cbn [zip_with concat];
    [constructor|constructor|constructor|].
  apply Forall_cons in Hf as [Hw Hf]. apply Forall_app. split.
  - apply group_nl_free; [|exact Hw]. apply Hcs. left.
  - apply IH; [|exact Hf]. intros c' Hc'. apply Hcs. now right.
Qed.

Lemma labels_shape bins now cs ls :
  labels bins now cs = Ok ls ->
  length ls = length cs /\ Forall (fun w => In w LABELS) ls.
Proof.
  intros H. apply labels_Ok_inv in H.
  induction H as [|c w cs ls (d & _ & _ & Hl) _ [IHn IHf]];
    [split; [reflexivity|constructor]|].
  split; [cbn [length]; now rewrite IHn|].
  constructor; [|exact IHf]. eapply relative_date_LABELS, Hl.
Qed.

Lemma groups_not_nil cs ls :
  cs <> [] -> length ls = length cs -> concat (groups cs ls) <> [].
Proof.
  destruct cs as [|c cs], ls as [|w ls]; try congruence; discriminate.
Qed.

Lemma labels_of_actions bins now now' cs ls ls' :
  cs <> [] -> cs ⊆ sorted BIN_COLOURS ->
  labels bins now cs = Ok ls -> labels bins now' cs = Ok ls' ->
  actions_of (concat (groups cs ls)) = actions_of (concat (groups cs ls')) ->
  ls = ls'.
Proof.
  intros Hne Hsub H H' E.
  apply labels_shape in H as [Hn Hf]. apply labels_shape in H' as [Hn' Hf'].
  apply (groups_inj cs); auto.
  apply actions_of_inj; auto using groups_not_nil, groups_nl_free.
Qed.

Lemma sorted_BIN_COLOURS_not_nil : sorted BIN_COLOURS <> [].
Proof. rewrite sorted_BIN_COLOURS. discriminate. Qed.

(** Equal action texts come from equal labels. *)
Lemma ui_inkscape_actions_inj bins now now' actions ls ls' :
  labels bins now (sorted BIN_COLOURS) = Ok ls ->
  labels bins now' (sorted BIN_COLOURS) = Ok ls' ->
  ui_inkscape_actions bins now = Ok actions ->
  ui_inkscape_actions bins now' = Ok actions ->
  ls = ls'.
Proof.
  intros H H'. rewrite !ui_inkscape_actions_labels, H, H'. unfold bind.
  intros E1 E2.
  eapply labels_of_actions;
    [apply sorted_BIN_COLOURS_not_nil|intros c Hc; exact Hc
    |exact H|exact H'|congruence].
Qed.

(** A day on which a category is due is not rendered like an earlier
    day. *)
Lemma ui_inkscape_actions_due bins now c d actions :
  c ∈ BIN_COLOURS -> bins !! c = Some d -> now < d ->
  ui_inkscape_actions bins now = Ok actions ->
  ui_inkscape_actions bins d <> Ok actions.
Proof.
  intros Hc Hd Hlt H H'.
  destruct (labels bins now (sorted BIN_COLOURS)) as [ls|e] eqn:Hls;
    [|rewrite ui_inkscape_actions_labels, Hls in H; discriminate H].
  destruct (labels bins d (sorted BIN_COLOURS)) as [ls'|e] eqn:Hls';
    [|rewrite ui_inkscape_actions_labels, Hls' in H'; discriminate H'].
  pose proof (ui_inkscape_actions_inj _ _ _ _ _ _ Hls Hls' H H') as <-.
  apply labels_Ok_inv in Hls, Hls'.
  apply elem_of_sorted_BIN_COLOURS, list_elem_of_lookup in Hc as [i Hi].
  destruct (Forall2_lookup_l _ _ _ _ _ Hls Hi)
    as (w & Hw & d1 & Hd1 & _ & Hr).
  destruct (Forall2_lookup_l _ _ _ _ _ Hls' Hi)
    as (w' & Hw' & d2 & Hd2 & _ & Hr').
  rewrite Hw in Hw'. injection Hw' as <-.
  rewrite Hd in Hd1, Hd2. injection Hd1 as <-. injection Hd2 as <-.
  assert (relative_date d d = Ok "today") as Ht
    by now apply relative_date_today.
  rewrite Ht in Hr'. injection Hr' as <-.
  apply relative_date_today in Hr. lia.
Qed.

(** *** The next-update scan *)

Lemma ui_inkscape_actions_Ok bins now :
  (forall c, c ∈ BIN_COLOURS -> exists d, bins !! c = Some d /\ now <= d) ->
  exists actions, ui_inkscape_actions bins now = Ok actions.
Proof.
  intros H. rewrite ui_inkscape_actions_labels.
  destruct (labels_Ok bins now (sorted BIN_COLOURS)) as (ls & -> & _);
    [|cbn [bind]; eauto].
  intros c Hc. apply H. now apply elem_of_sorted_BIN_COLOURS.
Qed.

(** With the four categories present, the builder fails exactly when a
    category's date is before the day asked about, and then with
    [DateInPastError]. *)
Lemma ui_inkscape_actions_past bins now c d :
  (forall c, c ∈ BIN_COLOURS -> is_Some (bins !! c)) ->
  c ∈ BIN_COLOURS -> bins !! c = Some d -> d < now ->
  ui_inkscape_actions bins now = Raise DateInPastError.
Proof.
  intros Hall Hc Hd Hlt. rewrite ui_inkscape_actions_labels.
  destruct (labels bins now (sorted BIN_COLOURS)) as [ls|e] eqn:Hls.
  - apply labels_Ok_inv in Hls.
    apply elem_of_sorted_BIN_COLOURS, list_elem_of_lookup in Hc as [i Hi].
    destruct (Forall2_lookup_l _ _ _ _ _ Hls Hi)
      as (w & _ & d' & Hd' & Hle & _).
    rewrite Hd in Hd'. injection Hd' as <-. lia.
  - cbn [bind]. apply labels_Raise in Hls as [[-> _]|(c' & Hc' & Hn & _)];
      [reflexivity|].
    apply elem_of_sorted_BIN_COLOURS, Hall in Hc' as [x Hx]. congruence.
Qed.

Lemma ui_inkscape_actions_Raise bins now e :
  (forall c, c ∈ BIN_COLOURS -> is_Some (bins !! c)) ->
  ui_inkscape_actions bins now = Raise e -> e = DateInPastError.
Proof.
  intros Hall. rewrite ui_inkscape_actions_labels.
  destruct (labels bins now (sorted BIN_COLOURS)) as [ls|e'] eqn:Hls;
    [discriminate|].
  cbn [bind]. intros [= ->].
  apply labels_Raise in Hls as [[-> _]|(c' & Hc' & Hn & _)]; [reflexivity|].
  apply elem_of_sorted_BIN_COLOURS, Hall in Hc' as [x Hx]. congruence.
Qed.

(** The scan returns the first later day that is not rendered like the
    baseline, given fuel for the days up to it. *)
Lemma scan_first fuel bins actions now r :
  now < r ->
  (forall d, now < d < r -> ui_inkscape_actions bins d = Ok actions) ->
  (ui_inkscape_actions bins r = Raise DateInPastError \/
   exists actions', ui_inkscape_actions bins r = Ok actions' /\
                    actions' <> actions) ->
  (Z.to_nat (r - now) <= fuel)%nat ->
  scan fuel bins actions now = Some (Ok r).
Proof.
  revert now. induction fuel as [|fuel IH]; intros now Hlt Hsame Hr Hfuel;
    [lia|].
  cbn [scan]. destruct (Z.eq_dec (now + 1) r) as [->|Hne].
  - destruct Hr as [->|(a' & -> & Hne)]; [reflexivity|].
    destruct (String.eqb_spec actions a'); congruence.
  - rewrite Hsame by lia. rewrite String.eqb_refl.
    apply IH; [lia| |exact Hr|lia]. intros d Hd. apply Hsame. lia.
Qed.

(** The first day after [lo], up to [lo + 1 + n], on which a decidable
    property holds. *)
Lemma first_day (P : Z -> Prop) `{forall d, Decision (P d)} (n : nat) :
  forall lo, P (lo + 1 + Z.of_nat n) ->
  exists r, lo < r <= lo + 1 + Z.of_nat n /\ P r /\
            forall d, lo < d < r -> ~ P d.
Proof.
  induction n as [|n IH]; intros lo Hhi.
  - exists (lo + 1). replace (lo + 1 + Z.of_nat 0) with (lo + 1) in * by lia.
    repeat split; [lia|lia|exact Hhi|]. intros d Hd. lia.
  - destruct (decide (P (lo + 1))) as [Hp|Hn].
    + exists (lo + 1). repeat split; [lia|lia|exact Hp|]. intros d Hd. lia.
    + destruct (IH (lo + 1)) as (r & Hr & HP & Hmin).
      { replace (lo + 1 + 1 + Z.of_nat n) with (lo + 1 + Z.of_nat (S n))
          by lia. exact Hhi. }
      exists r. repeat split; [lia|lia|exact HP|].
      intros d Hd. destruct (Z.eq_dec d (lo + 1)) as [->|Hne];
        [exact Hn|apply Hmin; lia].
Qed.

(** What the scan returns for a mapping with the four categories and no
    date before the reference: the first later day [r] whose outcome is
    not the baseline's, at most one day after every event date. *)
Lemma get_next_update_first bins now :
  (forall c, c ∈ BIN_COLOURS -> exists d, bins !! c = Some d /\ now <= d) ->
  exists r actions,
    ui_inkscape_actions bins now = Ok actions /\
    (forall fuel, (Z.to_nat (r - now) <= fuel)%nat ->
       get_next_update fuel bins now = Some (Ok r)) /\
    now < r /\
    (forall c d, c ∈ BIN_COLOURS -> bins !! c = Some d -> r <= d + 1) /\
    (ui_inkscape_actions bins r = Raise DateInPastError \/
     exists actions', ui_inkscape_actions bins r = Ok actions' /\
                      actions' <> actions) /\
    (forall d, now < d < r -> ui_inkscape_actions bins d = Ok actions).
Proof.
  intros H.
  assert (Hall : forall c, c ∈ BIN_COLOURS -> is_Some (bins !! c)).
  { intros c Hc. destruct (H c Hc) as (d & -> & _). eauto. }
  destruct (ui_inkscape_actions_Ok bins now H) as [actions Hbase].
  assert (Hblack : "black" ∈ BIN_COLOURS) by (vm_compute; reflexivity).
  destruct (H _ Hblack) as (d0 & Hd0 & Hle0).
  destruct (first_day
              (fun d => ui_inkscape_actions bins d <> Ok actions)
              (Z.to_nat (d0 - now)) now) as (r & Hr & Hdiff & Hmin).
  { rewrite (ui_inkscape_actions_past bins _ "black" d0 Hall Hblack Hd0)
      by lia. discriminate. }
  assert (Hsame : forall d, now < d < r ->
                            ui_inkscape_actions bins d = Ok actions).
  { intros d Hd. specialize (Hmin d Hd).
    destruct (decide (ui_inkscape_actions bins d = Ok actions)) as [E|E];
      [exact E|contradiction]. }
  assert (Hstop : ui_inkscape_actions bins r = Raise DateInPastError \/
            exists actions', ui_inkscape_actions bins r = Ok actions' /\
                             actions' <> actions).
  { destruct (ui_inkscape_actions bins r) as [a'|e] eqn:Hur.
    - right. exists a'. split; [reflexivity|congruence].
    - left. f_equal. eapply ui_inkscape_actions_Raise; eauto. }
  exists r, actions. split; [exact Hbase|]. split.
  { intros fuel Hfuel. unfold get_next_update. rewrite Hbase.
    apply scan_first; auto; lia. }
  split; [lia|]. split; [|split; [exact Hstop|exact Hsame]].
  intros c d Hc Hd. destruct (Z.le_gt_cases r (d + 1)) as [|Hgt]; [auto|].
  destruct (H c Hc) as (d' & Hd' & Hle). rewrite Hd in Hd'.
  injection Hd' as <-.
  assert (Hs : ui_inkscape_actions bins (d + 1) = Ok actions)
    by (apply Hsame; lia).
  rewrite (ui_inkscape_actions_past bins (d + 1) c d Hall Hc Hd) in Hs
    by lia.
  discriminate Hs.
Qed.

Lemma ui_inkscape_actions_Raise_inv bins now e :
  ui_inkscape_actions bins now = Raise e ->
  (e = DateInPastError /\
     exists c d, c ∈ BIN_COLOURS /\ bins !! c = Some d /\ d < now) \/
  (exists c, c ∈ BIN_COLOURS /\ bins !! c = None /\ e = KeyError c).
Proof.
  rewrite ui_inkscape_actions_labels.
  destruct (labels bins now (sorted BIN_COLOURS)) as [ls|e'] eqn:Hls;
    [discriminate|].
  cbn [bind]. intros [= ->].
  apply labels_Raise in Hls as [(-> & c & d & Hc & Hd)|(c & Hc & Hn)];
    [left; split; [reflexivity|exists c, d]|right; exists c];
    (split; [now apply elem_of_sorted_BIN_COLOURS|auto]).
Qed.

(** Event mappings for the examples: one category due on 3 January 2000,
    a Monday, the others in the following weeks. *)
Definition bins_2000 : gmap string date :=
  {[ "black" := 730122; "blue" := 730129; "brown" := 730129;
     "green" := 730136 ]}.

Lemma BIN_COLOURS_cases c :
  c ∈ BIN_COLOURS ->
  c = "black" \/ c = "blue" \/ c = "brown" \/ c = "green".
Proof.
  intros Hc. apply elem_of_sorted_BIN_COLOURS in Hc.
  rewrite sorted_BIN_COLOURS in Hc.
  repeat (apply elem_of_cons in Hc as [->|Hc]; [tauto|]).
  now apply elem_of_nil in Hc.
Qed.

Lemma same_day_bins_lookup d c :
  c ∈ BIN_COLOURS -> same_day_bins d !! c = Some d.
Proof.
  intros Hc.
  destruct (BIN_COLOURS_cases c Hc) as [-> | [-> | [-> | ->]]]; reflexivity.
Qed.

(** C10.  With the four categories present and no event before the
    reference date the scan needs no cap: it returns a date [r] once it has
    fuel for [r - now] iterations, [r] is at most one day after every event
    date (so after the earliest), and [r] is the first candidate whose
    actions differ from the baseline or for which the builder raises
    [DateInPastError]. *)
Theorem get_next_update_terminates (bins : gmap string date) (now : date) :
  (forall c, c ∈ BIN_COLOURS -> exists d, bins !! c = Some d /\ now <= d) ->
  exists r actions,
    ui_inkscape_actions bins now = Ok actions /\
    (forall fuel, (Z.to_nat (r - now) <= fuel)%nat ->
       get_next_update fuel bins now = Some (Ok r)) /\
    now < r /\
    (forall c d, c ∈ BIN_COLOURS -> bins !! c = Some d -> r <= d + 1) /\
    (ui_inkscape_actions bins r = Raise DateInPastError \/
     exists actions', ui_inkscape_actions bins r = Ok actions' /\
                      actions' <> actions) /\
    (forall d, now < d < r -> ui_inkscape_actions bins d = Ok actions).
Proof. apply get_next_update_first. Qed.

Lemma get_next_update_terminates_witness :
  exists r actions,
    ui_inkscape_actions (same_day_bins 730222) 730122 = Ok actions /\
    (forall fuel, (Z.to_nat (r - 730122) <= fuel)%nat ->
       get_next_update fuel (same_day_bins 730222) 730122 = Some (Ok r)) /\
    730122 < r /\
    (forall c d, c ∈ BIN_COLOURS -> same_day_bins 730222 !! c = Some d ->
                 r <= d + 1) /\
    (ui_inkscape_actions (same_day_bins 730222) r = Raise DateInPastError \/
     exists actions',
       ui_inkscape_actions (same_day_bins 730222) r = Ok actions' /\
       actions' <> actions) /\
    (forall d, 730122 < d < r ->
       ui_inkscape_actions (same_day_bins 730222) d = Ok actions).
Proof.
  apply (get_next_update_terminates (same_day_bins 730222) 730122).
  intros c Hc. exists 730222. split; [now apply same_day_bins_lookup|lia].
Defined.

Lemma scan_stops_at_DateInPastError_aux fuel actions :
  scan (S fuel) (same_day_bins 730122) actions 730122 = Some (Ok 730123).
Proof.
  cbn [scan]. change (730122 + 1) with 730123.
  replace (ui_inkscape_actions (same_day_bins 730122) 730123)
    with (@Raise string DateInPastError) by (vm_compute; reflexivity).
  reflexivity.
Qed.

(** C3, as the code has it.  When the builder raises [DateInPastError] for
    a candidate, the scan absorbs the error and stops there: that candidate
    is the date it returns, and no later candidate is looked at. *)
Theorem scan_stops_at_DateInPastError (fuel : nat)
    (bins : gmap string date) (actions : string) (now : date) :
  ui_inkscape_actions bins (now + 1) = Raise DateInPastError ->
  scan (S fuel) bins actions now = Some (Ok (now + 1)).
Proof. intros H. cbn [scan]. now rewrite H. Qed.

Lemma ui_same_day_bins_next :
  ui_inkscape_actions (same_day_bins 730122) (730122 + 1)
  = Raise DateInPastError.
Proof. vm_compute. reflexivity. Qed.

Lemma scan_stops_at_DateInPastError_witness :
  ui_inkscape_actions (same_day_bins 730122) (730122 + 1)
  = Raise DateInPastError /\
  scan 1 (same_day_bins 730122) EmptyString 730122
  = Some (Ok (730122 + 1)).
Proof.
  split; [exact ui_same_day_bins_next|].
  apply (scan_stops_at_DateInPastError 0 (same_day_bins 730122)
           EmptyString 730122 ui_same_day_bins_next).
Defined.

(** C3 fails as stated: with every category due on the reference date the
    first candidate raises [DateInPastError], and the scan returns that
    candidate whatever fuel it has to keep scanning. *)
Lemma scan_does_not_keep_scanning :
  ui_inkscape_actions (same_day_bins 730122) 730123
  = Raise DateInPastError /\
  (forall fuel, (1 <= fuel)%nat ->
     get_next_update fuel (same_day_bins 730122) 730122
     = Some (Ok 730123)).
Proof.
  split; [vm_compute; reflexivity|].
  intros [|fuel] Hfuel; [lia|].
  unfold get_next_update.
  destruct (ui_inkscape_actions (same_day_bins 730122) 730122)
    as [actions|e] eqn:Hbase; [|vm_compute in Hbase; discriminate Hbase].
  apply (scan_stops_at_DateInPastError_aux fuel).
Qed.

(** C2, as the code has it.  For a mapping with exactly the four
    categories and no date before the reference, the scan returns a date
    [r] after the reference, and every day strictly between is rendered as
    the baseline.  When no category is due on the reference date itself,
    [r] has a selector set and it differs from the baseline.  When a
    category is due on the reference date, [r] is the next day and the
    builder has no selector set for it: it raises [DateInPastError]. *)
Theorem get_next_update_changes (bins : gmap string date) (now : date) :
  dom bins = BIN_COLOURS ->
  (forall c d, bins !! c = Some d -> now <= d) ->
  exists r actions,
    ui_inkscape_actions bins now = Ok actions /\
    (forall fuel, (Z.to_nat (r - now) <= fuel)%nat ->
       get_next_update fuel bins now = Some (Ok r)) /\
    now < r /\
    (forall d, now < d < r -> ui_inkscape_actions bins d = Ok actions) /\
    ((forall c d, bins !! c = Some d -> d <> now) ->
       exists actions', ui_inkscape_actions bins r = Ok actions' /\
                        actions' <> actions) /\
    ((exists c, bins !! c = Some now) ->
       r = now + 1 /\
       ui_inkscape_actions bins r = Raise DateInPastError).
Proof.
  intros Hdom Hle.
  assert (Hall : forall c, c ∈ BIN_COLOURS -> is_Some (bins !! c)).
  { intros c Hc. apply elem_of_dom. now rewrite Hdom. }
  destruct (get_next_update_first bins now)
    as (r & actions & Hbase & Hfuel & Hlt & Hbound & Hstop & Hsame).
  { intros c Hc. destruct (Hall c Hc) as [d Hd]. eauto. }
  exists r, actions. repeat (split; [assumption|]). split.
  - intros Hfuture. destruct Hstop as [Hraise|Hok]; [exfalso|exact Hok].
    apply ui_inkscape_actions_Raise_inv in Hraise
      as [(_ & c & d & Hc & Hd & Hdr)|(c & _ & _ & [=])].
    pose proof (Hle c d Hd). pose proof (Hfuture c d Hd).
    apply (ui_inkscape_actions_due bins now c d actions Hc Hd);
      [lia|exact Hbase|apply Hsame; lia].
  - intros (c & Hc).
    assert (Hin : c ∈ BIN_COLOURS)
      by (rewrite <- Hdom; apply elem_of_dom; eauto).
    pose proof (Hbound c now Hin Hc).
    assert (r = now + 1) as -> by lia. split; [reflexivity|].
    apply (ui_inkscape_actions_past bins (now + 1) c now Hall Hin Hc). lia.
Qed.

Lemma dom_bins_2000 : dom bins_2000 = BIN_COLOURS.
Proof. vm_compute. reflexivity. Qed.

Lemma bins_2000_dates c d : bins_2000 !! c = Some d -> 730122 <= d.
Proof.
  intros H. assert (Hc : c ∈ BIN_COLOURS).
  { rewrite <- dom_bins_2000. apply elem_of_dom. eauto. }
  destruct (BIN_COLOURS_cases c Hc) as [-> | [-> | [-> | ->]]];
    vm_compute in H; injection H as <-; lia.
Qed.

Lemma get_next_update_changes_witness :
  exists r actions,
    ui_inkscape_actions bins_2000 730122 = Ok actions /\
    (forall fuel, (Z.to_nat (r - 730122) <= fuel)%nat ->
       get_next_update fuel bins_2000 730122 = Some (Ok r)) /\
    730122 < r /\
    (forall d, 730122 < d < r ->
       ui_inkscape_actions bins_2000 d = Ok actions) /\
    ((forall c d, bins_2000 !! c = Some d -> d <> 730122) ->
       exists actions', ui_inkscape_actions bins_2000 r = Ok actions' /\
                        actions' <> actions) /\
    ((exists c, bins_2000 !! c = Some 730122) ->
       r = 730122 + 1 /\
       ui_inkscape_actions bins_2000 r = Raise DateInPastError).
Proof.
  exact (get_next_update_changes bins_2000 730122 dom_bins_2000
           bins_2000_dates).
Defined.

(** C2 fails as stated: the mapping has exactly the four categories, none
    before the reference date, and one due on it; the scan returns the next
    day, for which the builder raises [DateInPastError] and so has no
    selector set to differ from the baseline. *)
Lemma returned_date_without_selectors :
  dom bins_2000 = BIN_COLOURS /\
  (forall c d, bins_2000 !! c = Some d -> 730122 <= d) /\
  get_next_update 1 bins_2000 730122 = Some (Ok 730123) /\
  ui_inkscape_actions bins_2000 730123 = Raise DateInPastError /\
  (forall actions, ui_inkscape_actions bins_2000 730123 <> Ok actions).
Proof.
  split; [exact dom_bins_2000|]. split; [exact bins_2000_dates|].
  split; [vm_compute; reflexivity|]. split; [vm_compute; reflexivity|].
  intros actions H. vm_compute in H. discriminate H.
Qed.

(** C4, as the code has it.  The scan has no cap and no error of its own.
    For a mapping with the four categories and no date before the
    reference, when none of the 60 days after the reference is rendered
    differently from the baseline, the scan goes on past them and returns a
    later date, still at most one day after every event date. *)
Theorem get_next_update_has_no_cap (bins : gmap string date) (now : date) :
  (forall c, c ∈ BIN_COLOURS -> exists d, bins !! c = Some d /\ now <= d) ->
  (forall k, 1 <= k <= 60 ->
     ui_inkscape_actions bins (now + k) = ui_inkscape_actions bins now) ->
  exists r,
    now + 60 < r /\
    (forall fuel, (Z.to_nat (r - now) <= fuel)%nat ->
       get_next_update fuel bins now = Some (Ok r)) /\
    (forall fuel, (fuel <= 60)%nat -> get_next_update fuel bins now = None) /\
    (forall c d, c ∈ BIN_COLOURS -> bins !! c = Some d -> r <= d + 1).
Proof.
  intros H Hquiet.
  destruct (get_next_update_first bins now H)
    as (r & actions & Hbase & Hfuel & Hlt & Hbound & Hstop & Hsame).
  assert (Hr : now + 60 < r).
  { destruct (Z.lt_ge_cases (now + 60) r) as [|Hge]; [assumption|].
    specialize (Hquiet (r - now)). replace (now + (r - now)) with r in Hquiet
      by lia.
    rewrite Hbase in Hquiet.
    destruct Hstop as [E|(a' & E & Hne)]; rewrite E in Hquiet;
      [discriminate Hquiet; lia|].
    assert (Ok a' = Ok actions) as [= ->] by (apply Hquiet; lia).
    congruence. }
  exists r. split; [exact Hr|]. split; [exact Hfuel|].
  split; [|exact Hbound].
  intros fuel Hcap. unfold get_next_update. rewrite Hbase.
  assert (Hgo : forall n now', (n <= 60)%nat ->
            now <= now' -> now' + Z.of_nat n <= now + 60 ->
            scan n bins actions now' = None).
  { induction n as [|n IH]; intros now' Hn Hlo Hhi; [reflexivity|].
    cbn [scan]. rewrite Hsame by lia. rewrite String.eqb_refl.
    apply IH; lia. }
  apply Hgo; lia.
Qed.

Lemma far_bins_quiet k :
  1 <= k <= 60 ->
  ui_inkscape_actions (same_day_bins 730222) (730122 + k)
  = ui_inkscape_actions (same_day_bins 730222) 730122.
Proof.
  intros Hk.
  assert (forallb (fun k =>
            bool_decide
              (ui_inkscape_actions (same_day_bins 730222) (730122 + k)
               = ui_inkscape_actions (same_day_bins 730222) 730122))
            (seqZ 1 60) = true) as Hall by (vm_compute; reflexivity).
  rewrite forallb_forall in Hall.
  eapply bool_decide_eq_true_1, Hall, list_elem_of_In, elem_of_seqZ. lia.
Qed.

Lemma far_bins_dates c :
  c ∈ BIN_COLOURS ->
  exists d, same_day_bins 730222 !! c = Some d /\ 730122 <= d.
Proof.
  intros Hc. exists 730222. split; [now apply same_day_bins_lookup|lia].
Qed.

Lemma get_next_update_has_no_cap_witness :
  exists r,
    730122 + 60 < r /\
    (forall fuel, (Z.to_nat (r - 730122) <= fuel)%nat ->
       get_next_update fuel (same_day_bins 730222) 730122 = Some (Ok r)) /\
    (forall fuel, (fuel <= 60)%nat ->
       get_next_update fuel (same_day_bins 730222) 730122 = None) /\
    (forall c d, c ∈ BIN_COLOURS -> same_day_bins 730222 !! c = Some d ->
                 r <= d + 1).
Proof.
  exact (get_next_update_has_no_cap (same_day_bins 730222) 730122
           far_bins_dates far_bins_quiet).
Defined.

(** C4 fails as stated: every category is due 100 days after a Monday; no
    day within 60 days is rendered differently from the baseline, and the
    scan, instead of failing, returns the day 70 days ahead. *)
Lemma scan_goes_past_60_days :
  (forall k, 1 <= k <= 60 ->
     ui_inkscape_actions (same_day_bins 730222) (730122 + k)
     = ui_inkscape_actions (same_day_bins 730222) 730122) /\
  get_next_update 70 (same_day_bins 730222) 730122
  = Some (Ok (730122 + 70)).
Proof. split; [exact far_bins_quiet|vm_compute; reflexivity]. Qed.

End ServerSpec.

(** * Properties of the firmware *)

Module FirmwareSpec.
Import Py Firmware.
Local Open Scope string_scope.
Local Open Scope list_scope.

(** A cycle succeeds when the connection is made, the body of the [try]
    runs to its end and the sleep returns; it fails when the body raises an
    [Exception], the handler shows it and the sleep returns.  Any other
    cycle lets an exception out of the loop. *)
Definition cycle_succeeds (env : cycle_env) : Prop :=
  connect_result env = None /\
  (exists v, snd (try_body env) = Returns v) /\
  sleep_result env = None.

Definition cycle_fails (env : cycle_env) : Prop :=
  connect_result env = None /\
  (exists e, snd (try_body env) = Raises e /\ is_Exception e = true) /\
  show_error_result env = None /\
  sleep_result env = None.

Lemma for_header_bytes_trace hs : fst (for_header_bytes hs) = [].
Proof.
  induction hs as [|h hs IH]; [reflexivity|]. cbn [for_header_bytes].
  destruct (decode_ascii h) as [s|]; [|reflexivity].
  destruct (partition ":" s) as [[key found] value].
  destruct (String.eqb _ _); [|exact IH].
  destruct (int (strip value)); reflexivity.
Qed.

Lemma try_body_Returns env v :
  snd (try_body env) = Returns v -> snd v = 1.
Proof.
  unfold try_body, bind, call, ret, raise.
  destruct (get_result env) as [e|r]; [discriminate|].
  destruct (status_code r =? 200)%Z; [|discriminate].
  destruct (show_png_result env); [discriminate|].
  destruct (for_header_bytes (headers r)) as [t [n|e|]]; cbn;
    [|discriminate|discriminate].
  intros [= <-]. reflexivity.
Qed.

Lemma cycle_of_success env b n :
  connect_result env = None ->
  snd (try_body env) = Returns (n, 1) ->
  sleep_result env = None ->
  cycle env b = (Connect :: fst (try_body env) ++ [SleepFor n], Returns 1).
Proof.
  intros Hc Hb Hs. unfold cycle, call. rewrite Hc, Hs.
  destruct (try_body env) as [t o]. cbn [snd] in Hb. subst o.
  cbn. rewrite ?app_nil_r. reflexivity.
Qed.

Lemma cycle_of_failure env b e :
  connect_result env = None ->
  snd (try_body env) = Raises e -> is_Exception e = true ->
  show_error_result env = None ->
  sleep_result env = None ->
  cycle env b
  = (Connect :: fst (try_body env)
       ++ [ShowError (exn_type e) (exn_msg e); SleepFor b],
     Returns (Z.min (24 * 60) (b * 2))).
Proof.
  intros Hc Hb He Hh Hs. unfold cycle, handler, call. rewrite Hc, Hs, Hh.
  destruct (try_body env) as [t o]. cbn [snd] in Hb. subst o.
  cbn. rewrite He. cbn. rewrite ?app_nil_r, <- ?app_assoc. reflexivity.
Qed.

Lemma cycle_succeeds_backoff env b :
  cycle_succeeds env -> snd (cycle env b) = Returns 1.
Proof.
  intros (Hc & [[n b'] Hv] & Hs).
  pose proof (try_body_Returns _ _ Hv) as Hb. cbn in Hb. subst b'.
  now rewrite (cycle_of_success env b n).
Qed.

Lemma cycle_fails_backoff env b :
  cycle_fails env -> snd (cycle env b) = Returns (Z.min (24 * 60) (b * 2)).
Proof.
  intros (Hc & (e & Hv & He) & Hh & Hs).
  now rewrite (cycle_of_failure env b e).
Qed.

Lemma backoff_after_app envs envs' b :
  backoff_after (envs ++ envs') b
  = match backoff_after envs b with
    | Some b' => backoff_after envs' b'
    | None => None
    end.
Proof.
  revert b. induction envs as [|env envs IH]; intros b; [reflexivity|].
  cbn [app backoff_after]. destruct (snd (cycle env b)); auto.
Qed.

Lemma backoff_after_failures fails b :
  1 <= b <= 24 * 60 -> Forall cycle_fails fails ->
  backoff_after fails b
  = Some (Z.min (24 * 60) (b * 2 ^ Z.of_nat (length fails))).
Proof.
  intros Hb Hf. revert b Hb.
  induction Hf as [|env fails Hen _ IH]; intros b Hb.
  - cbn [backoff_after length]. f_equal. change (2 ^ Z.of_nat 0) with 1. lia.
  - cbn [backoff_after length]. rewrite (cycle_fails_backoff env b Hen).
    rewrite IH by lia. f_equal.
    rewrite Nat2Z.inj_succ, Z.pow_succ_r by lia.
    pose proof (Z.pow_pos_nonneg 2 (Z.of_nat (length fails))) as Hp.
    set (p := 2 ^ Z.of_nat (length fails)) in *.
    assert (0 < p) by (apply Hp; lia).
    destruct (Z.le_gt_cases (b * 2) (24 * 60)).
    + rewrite (Z.min_r (24 * 60) (b * 2)) by lia. f_equal. lia.
    + rewrite (Z.min_l (24 * 60) (b * 2)) by lia.
      rewrite !Z.min_l by nia. reflexivity.
Qed.

(** C7.  The backoff starts at 1 (the loop is entered with it); after [n]
    failed cycles in a row from the start, or from a successful cycle, it
    is [min (24 * 60) (2 ^ n)]; and a successful cycle leaves it at 1
    whatever it was before. *)
Theorem backoff_sequence :
  (forall envs fin,
     main envs fin
     = try_finally (while_true envs 1)
                   (call (SleepFor (24 * 60)) fin)) /\
  (forall fails,
     Forall cycle_fails fails ->
     backoff_after fails 1
     = Some (Z.min (24 * 60) (2 ^ Z.of_nat (length fails)))) /\
  (forall env b, cycle_succeeds env -> snd (cycle env b) = Returns 1) /\
  (forall before ok fails b0 b,
     backoff_after before b0 = Some b ->
     cycle_succeeds ok ->
     Forall cycle_fails fails ->
     backoff_after (before ++ ok :: fails) b0
     = Some (Z.min (24 * 60) (2 ^ Z.of_nat (length fails)))).
Proof.
  split; [reflexivity|]. split; [|split].
  - intros fails Hf. rewrite backoff_after_failures by (auto; lia).
    now rewrite Z.mul_1_l.
  - apply cycle_succeeds_backoff.
  - intros before ok fails b0 b Hbefore Hok Hf.
    rewrite backoff_after_app, Hbefore. cbn [backoff_after].
    rewrite (cycle_succeeds_backoff ok b Hok).
    rewrite backoff_after_failures by (auto; lia). now rewrite Z.mul_1_l.
Qed.

(** Example cycles: the server answers [status] with the headers [hs]. *)
Definition answer (status : Z) (hs : list string) : cycle_env :=
  CycleEnv None (inr (Response status "png" hs)) None None None.

Lemma answer_404_fails : cycle_fails (answer 404 []).
Proof.
  split; [reflexivity|]. split; [|split; reflexivity].
  eexists. split; reflexivity.
Qed.

Lemma answer_200_succeeds : cycle_succeeds (answer 200 []).
Proof.
  split; [reflexivity|]. split; [|reflexivity]. eexists. reflexivity.
Qed.

Lemma backoff_sequence_witness :
  backoff_after [answer 404 []; answer 404 []; answer 404 []] 1 = Some 8 /\
  backoff_after
    ([answer 404 []; answer 404 []] ++ answer 200 [] :: [answer 404 []]) 1
  = Some 2.
Proof.
  split.
  - apply (proj1 (proj2 backoff_sequence)
             [answer 404 []; answer 404 []; answer 404 []]).
    repeat constructor; apply answer_404_fails.
  - apply (proj2 (proj2 (proj2 backoff_sequence))
             [answer 404 []; answer 404 []] (answer 200 [])
             [answer 404 []] 1 4).
    + vm_compute. reflexivity.
    + apply answer_200_succeeds.
    + repeat constructor; apply answer_404_fails.
Defined.

(** *** The next-update header *)

(** The key of a header line as the loop compares it, and its value. *)
Definition header_key (h : string) : string :=
  strip (lower (fst (fst (partition ":" h)))).

Definition header_value (h : string) : string := snd (partition ":" h).

(** A header line the loop steps over: it decodes and its key is not the
    hint's. *)
Definition other_header (h : string) : Prop :=
  decode_ascii h = Some h /\ header_key h <> "x-next-update".

Definition hint_header (h : string) : Prop :=
  decode_ascii h = Some h /\ header_key h = "x-next-update".

Lemma for_header_bytes_other h hs :
  other_header h -> for_header_bytes (h :: hs) = for_header_bytes hs.
Proof.
  intros [Hd Hk]. cbn [for_header_bytes]. rewrite Hd.
  unfold header_key in Hk.
  destruct (partition ":" h) as [[key found] value]. cbn [fst] in Hk.
  change (lower "X-Next-Update") with "x-next-update".
  destruct (String.eqb_spec (strip (lower key)) "x-next-update");
    [contradiction|reflexivity].
Qed.

Lemma for_header_bytes_others hs rest :
  Forall other_header hs ->
  for_header_bytes (hs ++ rest) = for_header_bytes rest.
Proof.
  induction 1 as [|h hs Hh _ IH]; [reflexivity|].
  cbn [app]. now rewrite for_header_bytes_other.
Qed.

Lemma for_header_bytes_hint h hs :
  hint_header h ->
  for_header_bytes (h :: hs)
  = match int (strip (header_value h)) with
    | None => raise ValueError
    | Some n => ret (n / 60)
    end.
Proof.
  intros [Hd Hk]. cbn [for_header_bytes]. rewrite Hd.
  unfold header_key in Hk. unfold header_value.
  destruct (partition ":" h) as [[key found] value]. cbn [fst snd] in *.
  change (lower "X-Next-Update") with "x-next-update".
  rewrite Hk, String.eqb_refl. reflexivity.
Qed.

(** A cycle in which the connection, the fetch (status 200), the display
    and the sleep all go through. *)
Definition fetch_and_display_succeed (env : cycle_env) (r : response)
    : Prop :=
  connect_result env = None /\ get_result env = inr r /\
  status_code r = 200 /\ show_png_result env = None /\
  show_error_result env = None /\ sleep_result env = None.

Lemma cycle_of_headers env r b :
  fetch_and_display_succeed env r ->
  cycle env b
  = match snd (for_header_bytes (headers r)) with
    | Returns n =>
        ([Connect; Get; ShowPng (content r); SleepFor n], Returns 1)
    | Raises e =>
        if is_Exception e
        then ([Connect; Get; ShowPng (content r);
               ShowError (exn_type e) (exn_msg e); SleepFor b],
              Returns (Z.min (24 * 60) (b * 2)))
        else ([Connect; Get; ShowPng (content r)], Raises e)
    | OutOfFuel => ([Connect; Get; ShowPng (content r)], OutOfFuel)
    end.
Proof.
  intros (Hc & Hg & Hst & Hp & Hh & Hs).
  unfold cycle, try_body, handler, call, bind, ret, raise.
  rewrite Hc, Hg, Hst, Hp, Hh, Hs. cbn [Z.eqb Pos.eqb].
  pose proof (for_header_bytes_trace (headers r)) as Ht.
  destruct (for_header_bytes (headers r)) as [t [n|e|]]; cbn [fst] in Ht;
    subst t; cbn; [reflexivity| |reflexivity].
  destruct (is_Exception e); reflexivity.
Qed.

(** C8, as the code has it.  On a cycle whose fetch and display succeed
    the device takes the hint from the first header whose key, lower-cased
    and stripped, is [x-next-update].  With no such header it sleeps the
    default [24 * 60] minutes and resets the backoff.  With a value that
    parses as an integer [v] it sleeps [v // 60] minutes and resets the
    backoff.  With a value that does not parse, [int] raises [ValueError]
    inside the [try], so the cycle takes the error path: it shows the error,
    sleeps the current backoff and doubles the backoff up to [24 * 60]. *)
Theorem cycle_next_update_hint (env : cycle_env) (r : response) (b : Z) :
  fetch_and_display_succeed env r ->
  (Forall other_header (headers r) ->
     cycle env b
     = ([Connect; Get; ShowPng (content r); SleepFor (24 * 60)],
        Returns 1)) /\
  (forall others h rest v,
     headers r = others ++ h :: rest ->
     Forall other_header others -> hint_header h ->
     int (strip (header_value h)) = Some v ->
     cycle env b
     = ([Connect; Get; ShowPng (content r); SleepFor (v / 60)],
        Returns 1)) /\
  (forall others h rest,
     headers r = others ++ h :: rest ->
     Forall other_header others -> hint_header h ->
     int (strip (header_value h)) = None ->
     cycle env b
     = ([Connect; Get; ShowPng (content r);
         ShowError "ValueError" (exn_msg ValueError); SleepFor b],
        Returns (Z.min (24 * 60) (b * 2)))).
Proof.
  intros Hok. rewrite (cycle_of_headers env r b Hok). split; [|split].
  - intros Hall. rewrite <- (app_nil_r (headers r)).
    now rewrite for_header_bytes_others.
  - intros others h rest v -> Hall Hh Hv.
    now rewrite for_header_bytes_others, for_header_bytes_hint, Hv.
  - intros others h rest -> Hall Hh Hv.
    now rewrite for_header_bytes_others, for_header_bytes_hint, Hv.
Qed.

Lemma answer_succeeds status hs :
  status = 200 ->
  fetch_and_display_succeed (answer status hs) (Response status "png" hs).
Proof. intros ->. repeat split. Qed.

Lemma cycle_next_update_hint_witness :
  cycle (answer 200 ["Content-Type: image/png"; "x-next-update: 7200"]) 4
  = ([Connect; Get; ShowPng "png"; SleepFor 120], Returns 1) /\
  cycle (answer 200 ["Content-Type: image/png"; "X-Next-Update: soon"]) 4
  = ([Connect; Get; ShowPng "png";
      ShowError "ValueError" (exn_msg ValueError); SleepFor 4],
     Returns 8).
Proof.
  split.
  - apply (proj1 (proj2 (cycle_next_update_hint
             (answer 200 ["Content-Type: image/png"; "x-next-update: 7200"])
             (Response 200 "png"
                ["Content-Type: image/png"; "x-next-update: 7200"]) 4
             (answer_succeeds 200 _ eq_refl)))
             ["Content-Type: image/png"] "x-next-update: 7200" [] 7200).
    + reflexivity.
    + repeat constructor. vm_compute. discriminate.
    + split; reflexivity.
    + vm_compute. reflexivity.
  - apply (proj2 (proj2 (cycle_next_update_hint
             (answer 200 ["Content-Type: image/png"; "X-Next-Update: soon"])
             (Response 200 "png"
                ["Content-Type: image/png"; "X-Next-Update: soon"]) 4
             (answer_succeeds 200 _ eq_refl)))
             ["Content-Type: image/png"] "X-Next-Update: soon" []).
    + reflexivity.
    + repeat constructor. vm_compute. discriminate.
    + split; reflexivity.
    + vm_compute. reflexivity.
Defined.

(** C8 fails as stated: the fetch and the display succeed and the hint is
    [soon]; the cycle shows the [ValueError], sleeps the backoff of one
    minute instead of 24 hours, and doubles the backoff. *)
Lemma bad_hint_takes_error_path :
  fetch_and_display_succeed
    (answer 200 ["X-Next-Update: soon"])
    (Response 200 "png" ["X-Next-Update: soon"]) /\
  hint_header "X-Next-Update: soon" /\
  int (strip (header_value "X-Next-Update: soon")) = None /\
  cycle (answer 200 ["X-Next-Update: soon"]) 1
  = ([Connect; Get; ShowPng "png";
      ShowError "ValueError" "invalid syntax for integer with base 10";
      SleepFor 1],
     Returns 2).
Proof.
  split; [now apply answer_succeeds|].
  split; [split; reflexivity|]. split; vm_compute; reflexivity.
Qed.

(** *** The final sleep *)

(** C9.  The loop has no normal exit, so a run of the program ends only
    with an exception; whenever it ends, whether the exception came out of
    the connection, the error handler, the cycle's sleep or is not an
    [Exception] at all, the last call the program made is
    [sleep_for(24 * 60)]. *)
Theorem main_sleeps_before_exit (envs : list cycle_env)
    (final_sleep_result : option exn) :
  snd (main envs final_sleep_result) <> OutOfFuel ->
  exists calls e,
    main envs final_sleep_result
    = (calls ++ [SleepFor (24 * 60)], Raises e).
Proof.
  unfold main, try_finally, call.
  destruct (while_true envs 1) as [t [[]|e|]]; cbn [snd]; [|congruence].
  intros _. exists t.
  destruct final_sleep_result as [e'|]; eauto.
Qed.

Lemma main_sleeps_before_exit_witness :
  exists calls e,
    main [answer 404 [];
          CycleEnv (Some (Exn "OSError" "no wifi" true))
                   (inr (Response 200 "png" [])) None None None] None
    = (calls ++ [SleepFor (24 * 60)], Raises e).
Proof.
  apply (main_sleeps_before_exit
           [answer 404 [];
            CycleEnv (Some (Exn "OSError" "no wifi" true))
                     (inr (Response 200 "png" [])) None None None] None).
  vm_compute. discriminate.
Defined.

End FirmwareSpec.

(** * Further properties of the server *)

Module ServerExtra.
Import Py Date Server ServerSpec.
Local Open Scope string_scope.
Local Open Scope list_scope.

(** The Monday of the calendar week of [d]. *)
Definition monday (d : date) : Z := d - weekday d.

(** X1.  From seven days ahead on, the label counts calendar weeks, Monday to
    Sunday: it is decided by the number of weeks between the Monday of the
    reference's week and the Monday of the target's week, whatever the days
    of the week of the two dates are. *)
Theorem relative_date_calendar_weeks (now then_ : date) :
  7 <= then_ - now ->
  let weeks := (monday then_ - monday now) / 7 in
  monday then_ - monday now = 7 * weeks /\
  1 <= weeks /\
  relative_date now then_
  = Ok (if (weeks =? 1)%Z then "next week"
        else if (weeks =? 2)%Z then "week after next"
        else if (weeks =? 3)%Z then "three weeks"
        else if (weeks =? 4)%Z then "four weeks"
        else "very long time").
Proof.
  intros H. cbv zeta. unfold monday.
  pose proof (weekday_range now). pose proof (weekday_range then_).
  set (k := (then_ + 6) / 7 - (now + 6) / 7).
  assert (Hk : then_ - weekday then_ - (now - weekday now) = k * 7).
  { unfold weekday, k.
    pose proof (Z.div_mod (then_ + 6) 7). pose proof (Z.div_mod (now + 6) 7).
    lia. }
  rewrite Hk, Z.div_mul by lia.
  assert (Hadj : then_ - now + weekday now = k * 7 + weekday then_) by lia.
  split; [lia|]. split; [lia|].
  unfold relative_date. rewrite Hadj.
  split_ifs; try reflexivity; lia.
Qed.

Lemma relative_date_calendar_weeks_witness :
  let weeks := (monday 730136 - monday 730124) / 7 in
  monday 730136 - monday 730124 = 7 * weeks /\
  1 <= weeks /\
  relative_date 730124 730136
  = Ok (if (weeks =? 1)%Z then "next week"
        else if (weeks =? 2)%Z then "week after next"
        else if (weeks =? 3)%Z then "three weeks"
        else if (weeks =? 4)%Z then "four weeks"
        else "very long time").
Proof. apply (relative_date_calendar_weeks 730124 730136). lia. Defined.

Lemma day_names_inj w1 w2 :
  0 <= w1 <= 6 -> 0 <= w2 <= 6 ->
  nth (Z.to_nat w1) day_names EmptyString
  = nth (Z.to_nat w2) day_names EmptyString ->
  w1 = w2.
Proof.
  intros H1 H2.
  assert (w1 = 0 \/ w1 = 1 \/ w1 = 2 \/ w1 = 3 \/ w1 = 4 \/ w1 = 5 \/ w1 = 6)
    as Hc1 by lia.
  assert (w2 = 0 \/ w2 = 1 \/ w2 = 2 \/ w2 = 3 \/ w2 = 4 \/ w2 = 5 \/ w2 = 6)
    as Hc2 by lia.
  destruct Hc1 as [->|[->|[->|[->|[->|[->| ->]]]]]];
    destruct Hc2 as [->|[->|[->|[->|[->|[->| ->]]]]]];
    intros E; first [reflexivity|discriminate E].
Qed.

Lemma day_names_not_near w :
  0 <= w <= 6 ->
  nth (Z.to_nat w) day_names EmptyString <> "today" /\
  nth (Z.to_nat w) day_names EmptyString <> "tomorrow".
Proof.
  intros H.
  assert (w = 0 \/ w = 1 \/ w = 2 \/ w = 3 \/ w = 4 \/ w = 5 \/ w = 6)
    as Hc by lia.
  destruct Hc as [->|[->|[->|[->|[->|[->| ->]]]]]]; split; discriminate.
Qed.

(** X2.  Within the week shown day by day (the reference date and the six days
    after it) the label identifies the date: two targets with the same label
    are the same day. *)
Theorem relative_date_identifies_day (now t1 t2 : date) :
  now <= t1 <= now + 6 -> now <= t2 <= now + 6 ->
  relative_date now t1 = relative_date now t2 -> t1 = t2.
Proof.
  intros H1 H2. unfold relative_date. rewrite !lower_strftime_A.
  pose proof (weekday_range t1) as Hw1. pose proof (weekday_range t2) as Hw2.
  pose proof (day_names_not_near _ Hw1) as [Ha1 Hb1].
  pose proof (day_names_not_near _ Hw2) as [Ha2 Hb2].
  split_ifs; intros E; try lia; try discriminate E; try congruence.
  injection E as E. apply day_names_inj in E; [|assumption..].
  unfold weekday in E.
  pose proof (Z.div_mod (t1 + 6) 7). pose proof (Z.div_mod (t2 + 6) 7).
  assert ((t1 + 6) / 7 = (t2 + 6) / 7 \/ (t1 + 6) / 7 < (t2 + 6) / 7 \/
          (t1 + 6) / 7 > (t2 + 6) / 7) as [|[|]] by lia; lia.
Qed.

Lemma relative_date_identifies_day_witness :
  relative_date 730122 (730120 + 5) = relative_date 730122 730125 /\
  730120 + 5 = 730125.
Proof.
  split; [reflexivity|].
  apply (relative_date_identifies_day 730122 (730120 + 5) 730125);
    [lia|lia|reflexivity].
Defined.

(** *** The action text and the labels *)

Lemma labels_same_day bins n1 n2 cs :
  (forall c d, c ∈ cs -> bins !! c = Some d ->
     relative_date n1 d = relative_date n2 d) ->
  labels bins n1 cs = labels bins n2 cs.
Proof.
  induction cs as [|c cs IH]; intros H; [reflexivity|].
  cbn [labels]. destruct (bins !! c) as [d|] eqn:Hd; [|reflexivity].
  rewrite (H c d) by (auto; left). rewrite IH; [reflexivity|].
  intros c' d' Hc'. apply H. now right.
Qed.

(** X3.  Two days on which the builder succeeds get the same action text exactly
    when every category has the same label on both: the text loses nothing
    of the labels (not through the dashes put for spaces, and not through the
    joining of the selectors). *)
Theorem ui_inkscape_actions_same_iff (bins : gmap string date)
    (n1 n2 : date) (a1 a2 : string) :
  ui_inkscape_actions bins n1 = Ok a1 ->
  ui_inkscape_actions bins n2 = Ok a2 ->
  (a1 = a2 <->
   forall c d, c ∈ BIN_COLOURS -> bins !! c = Some d ->
     relative_date n1 d = relative_date n2 d).
Proof.
  intros H1 H2. split.
  - intros <- c d Hc Hd.
    destruct (labels bins n1 (sorted BIN_COLOURS)) as [ls|e] eqn:Hls;
      [|rewrite ui_inkscape_actions_labels, Hls in H1; discriminate H1].
    destruct (labels bins n2 (sorted BIN_COLOURS)) as [ls'|e] eqn:Hls';
      [|rewrite ui_inkscape_actions_labels, Hls' in H2; discriminate H2].
    pose proof (ui_inkscape_actions_inj _ _ _ _ _ _ Hls Hls' H1 H2) as <-.
    apply labels_Ok_inv in Hls, Hls'.
    apply elem_of_sorted_BIN_COLOURS, list_elem_of_lookup in Hc as [i Hi].
    destruct (Forall2_lookup_l _ _ _ _ _ Hls Hi)
      as (w & Hw & d1 & Hd1 & _ & Hr).
    destruct (Forall2_lookup_l _ _ _ _ _ Hls' Hi)
      as (w' & Hw' & d2 & Hd2 & _ & Hr').
    rewrite Hw in Hw'. injection Hw' as <-.
    rewrite Hd in Hd1, Hd2. injection Hd1 as <-. injection Hd2 as <-.
    congruence.
  - intros H. rewrite !ui_inkscape_actions_labels in H1, H2.
    rewrite (labels_same_day bins n1 n2) in H1; [congruence|].
    intros c d Hc. apply H. now apply elem_of_sorted_BIN_COLOURS.
Qed.

Lemma ui_inkscape_actions_same_iff_witness :
  exists a,
    ui_inkscape_actions bins_2000 730117 = Ok a /\
    ui_inkscape_actions bins_2000 730119 = Ok a /\
    (a = a <->
     forall c d, c ∈ BIN_COLOURS -> bins_2000 !! c = Some d ->
       relative_date 730117 d = relative_date 730119 d).
Proof.
  eexists. split; [vm_compute; reflexivity|].
  split; [vm_compute; reflexivity|].
  apply (ui_inkscape_actions_same_iff bins_2000 730117 730119);
    vm_compute; reflexivity.
Defined.

(** X4.  With the four categories present the builder has two outcomes: the
    action text when no date is before the day asked about, and
    [DateInPastError] when one is; a past date is never rendered. *)
Theorem ui_inkscape_actions_outcome (bins : gmap string date) (now : date) :
  (forall c, c ∈ BIN_COLOURS -> is_Some (bins !! c)) ->
  ((exists actions, ui_inkscape_actions bins now = Ok actions) <->
   forall c d, c ∈ BIN_COLOURS -> bins !! c = Some d -> now <= d) /\
  (ui_inkscape_actions bins now = Raise DateInPastError <->
   exists c d, c ∈ BIN_COLOURS /\ bins !! c = Some d /\ d < now).
Proof.
  intros Hall. split; split.
  - intros [actions Hok] c d Hc Hd.
    destruct (Z.le_gt_cases now d) as [|Hlt]; [assumption|].
    rewrite (ui_inkscape_actions_past bins now c d) in Hok by (auto; lia).
    discriminate Hok.
  - intros Hle. apply ui_inkscape_actions_Ok. intros c Hc.
    destruct (Hall c Hc) as [d Hd]. eauto.
  - intros Hr.
    apply ui_inkscape_actions_Raise_inv in Hr
      as [(_ & c & d & H)|(c & _ & _ & [=])].
    eauto.
  - intros (c & d & Hc & Hd & Hlt).
    now apply (ui_inkscape_actions_past bins now c d).
Qed.

Lemma bins_2000_present c : c ∈ BIN_COLOURS -> is_Some (bins_2000 !! c).
Proof.
  intros Hc. apply elem_of_dom. now rewrite dom_bins_2000.
Qed.

Lemma ui_inkscape_actions_outcome_witness :
  ((exists actions, ui_inkscape_actions bins_2000 730123 = Ok actions) <->
   forall c d, c ∈ BIN_COLOURS -> bins_2000 !! c = Some d -> 730123 <= d) /\
  (ui_inkscape_actions bins_2000 730123 = Raise DateInPastError <->
   exists c d, c ∈ BIN_COLOURS /\ bins_2000 !! c = Some d /\ d < 730123).
Proof.
  exact (ui_inkscape_actions_outcome bins_2000 730123 bins_2000_present).
Defined.

(** *** The scan on every input *)

Lemma ui_inkscape_actions_Ok_inv bins now actions :
  ui_inkscape_actions bins now = Ok actions ->
  forall c, c ∈ BIN_COLOURS -> exists d, bins !! c = Some d /\ now <= d.
Proof.
  rewrite ui_inkscape_actions_labels.
  destruct (labels bins now (sorted BIN_COLOURS)) as [ls|e] eqn:Hls;
    [|discriminate].
  intros _ c Hc. apply labels_Ok_inv in Hls.
  apply elem_of_sorted_BIN_COLOURS, list_elem_of_lookup in Hc as [i Hi].
  destruct (Forall2_lookup_l _ _ _ _ _ Hls Hi) as (w & _ & d & Hd & Hle & _).
  eauto.
Qed.

(** X5.  The [while True] loop of [get_next_update] ends on every input: for any
    mapping and any reference date there is an outcome that the scan reaches
    with enough fuel and keeps with more.  The outcome is an exception
    exactly when the builder raises it for the reference date itself (the
    baseline call is outside the [try]); no exception comes out of the
    loop. *)
Theorem get_next_update_total (bins : gmap string date) (now : date) :
  exists outcome fuel0,
    (forall fuel, (fuel0 <= fuel)%nat ->
       get_next_update fuel bins now = Some outcome) /\
    (forall e, outcome = Raise e <-> ui_inkscape_actions bins now = Raise e) /\
    (forall r, outcome = Ok r -> now < r).
Proof.
  destruct (ui_inkscape_actions bins now) as [actions|e] eqn:Hbase.
  - destruct (get_next_update_first bins now)
      as (r & actions' & _ & Hfuel & Hlt & _).
    { eapply ui_inkscape_actions_Ok_inv, Hbase. }
    exists (Ok r), (Z.to_nat (r - now)). split; [exact Hfuel|].
    split; [intros e; split; discriminate|]. intros r' [= <-]. exact Hlt.
  - exists (Raise e), 0%nat. split.
    + intros fuel _. unfold get_next_update. now rewrite Hbase.
    + split; [|discriminate]. intros e'. split; congruence.
Qed.

(** X6.  When no category is due on the reference date or before it, the scan
    returns a day no later than any collection day, so no later than the
    earliest, and the builder succeeds for that day. *)
Theorem get_next_update_by_collection_day (bins : gmap string date)
    (now : date) :
  (forall c, c ∈ BIN_COLOURS -> exists d, bins !! c = Some d /\ now < d) ->
  exists r actions',
    (forall fuel, (Z.to_nat (r - now) <= fuel)%nat ->
       get_next_update fuel bins now = Some (Ok r)) /\
    now < r /\
    (forall c d, c ∈ BIN_COLOURS -> bins !! c = Some d -> r <= d) /\
    ui_inkscape_actions bins r = Ok actions'.
Proof.
  intros H.
  destruct (get_next_update_first bins now)
    as (r & actions & Hbase & Hfuel & Hlt & Hbound & Hstop & Hsame).
  { intros c Hc. destruct (H c Hc) as (d & Hd & Hd'). exists d.
    split; [exact Hd|lia]. }
  assert (Hle : forall c d, c ∈ BIN_COLOURS -> bins !! c = Some d -> r <= d).
  { intros c d Hc Hd. destruct (Z.le_gt_cases r d) as [|Hgt]; [assumption|].
    destruct (H c Hc) as (d' & Hd' & Hnow). rewrite Hd in Hd'.
    injection Hd' as <-.
    exfalso. apply (ui_inkscape_actions_due bins now c d actions Hc Hd Hnow);
      [exact Hbase|apply Hsame; lia]. }
  destruct (ui_inkscape_actions_Ok bins r) as [actions' Hr].
  { intros c Hc. destruct (H c Hc) as (d & Hd & _). eauto. }
  exists r, actions'. auto.
Qed.

Lemma get_next_update_by_collection_day_witness :
  exists r actions',
    (forall fuel, (Z.to_nat (r - 730117) <= fuel)%nat ->
       get_next_update fuel bins_2000 730117 = Some (Ok r)) /\
    730117 < r /\
    (forall c d, c ∈ BIN_COLOURS -> bins_2000 !! c = Some d -> r <= d) /\
    ui_inkscape_actions bins_2000 r = Ok actions'.
Proof.
  apply (get_next_update_by_collection_day bins_2000 730117).
  intros c Hc. destruct (bins_2000_present c Hc) as [d Hd].
  exists d. split; [exact Hd|]. apply bins_2000_dates in Hd. lia.
Defined.

End ServerExtra.

(** * The scraper: [get_bin_collection_dates]

    The page is fetched and parsed by [aiohttp] and [BeautifulSoup]; the
    model starts from what [soup.find_all("div", class_="service-item")]
    gives: for each item the [.string] of its [h3] and of each of its [p]
    elements, [None] where there is no such element or it has no single
    string (the attribute access that follows then raises
    [AttributeError]).  [datetime.strptime(_, "%A, %d %B %Y")] followed by
    [.date()] is a parameter: [None] stands for its [ValueError]. *)

Module Scraper.
Import Py Date Server.
Local Open Scope string_scope.
Local Open Scope list_scope.

(** [s.removesuffix(suffix)]. *)
Fixpoint removesuffix (suffix s : string) : string :=
  match s with
  | EmptyString => EmptyString
  | String c s' =>
      if String.eqb s suffix then EmptyString
      else String c (removesuffix suffix s')
  end.

(** The three [ValueError]s of the function, by their message. *)
Inductive value_error : Type :=
| NoValidBinColour
| NoDateFound
| UnexpectedBinColours.

Inductive error : Type :=
| ValueError (which : value_error)
| AttributeError.

Inductive outcome (A : Type) : Type :=
| Done (a : A)
| Fail (e : error).
Arguments Done {A} a.
Arguments Fail {A} e.

Definition and_then {A B} (r : outcome A) (k : A -> outcome B) : outcome B :=
  match r with
  | Done a => k a
  | Fail e => Fail e
  end.

Record service_item : Type := ServiceItem {
  h3 : option string;
  ps : list (option string)
}.

Section WithStrptime.

Variable strptime : string -> option date.

(** [bin_soup.find("h3").string.removesuffix(" bin").lower()], checked
    against [BIN_COLOURS]. *)
Definition item_colour (bin_soup : service_item) : outcome string :=
  match h3 bin_soup with
  | None => Fail AttributeError
  | Some text =>
      let bin_colour := lower (removesuffix " bin" text) in
      if decide (bin_colour ∈ BIN_COLOURS) then Done bin_colour
      else Fail (ValueError NoValidBinColour)
  end.

(** The [for date_candidate in bin_soup.find_all("p")] loop with its
    [else]. *)
Fixpoint first_date (candidates : list (option string)) : outcome date :=
  match candidates with
  | [] => Fail (ValueError NoDateFound)
  | None :: _ => Fail AttributeError
  | Some text :: candidates' =>
      match strptime (strip text) with
      | Some d => Done d
      | None => first_date candidates'
      end
  end.

(** The [for bin_soup in ...] loop, with the dictionary [out] it fills. *)
Fixpoint for_bin_soup (items : list service_item) (out : gmap string date)
    : outcome (gmap string date) :=
  match items with
  | [] => Done out
  | bin_soup :: items' =>
      and_then (item_colour bin_soup) (fun bin_colour =>
      and_then (first_date (ps bin_soup)) (fun d =>
      for_bin_soup items' (<[bin_colour := d]> out)))
  end.

(** [get_bin_collection_dates], from the parsed items on. *)
Definition bin_collection_dates (items : list service_item)
    : outcome (gmap string date) :=
  and_then (for_bin_soup items ∅) (fun out =>
  if decide (dom out = BIN_COLOURS) then Done out
  else Fail (ValueError UnexpectedBinColours)).

(** An item the loop accepts: its colour and its date. *)
Definition item_entry (bin_soup : service_item) (c : string) (d : date)
    : Prop :=
  item_colour bin_soup = Done c /\ first_date (ps bin_soup) = Done d.

Lemma item_colour_BIN_COLOURS bin_soup c :
  item_colour bin_soup = Done c -> c ∈ BIN_COLOURS.
Proof.
  unfold item_colour. destruct (h3 bin_soup) as [text|]; [|discriminate].
  case_decide; [|discriminate]. now intros [= <-].
Qed.

Lemma for_bin_soup_Done items : forall out out',
  for_bin_soup items out = Done out' ->
  Forall (fun it => exists c d, item_entry it c d) items /\
  (forall c, c ∈ dom out' <->
     c ∈ dom out \/ exists it, it ∈ items /\ item_colour it = Done c).
Proof.
  induction items as [|it items IH]; intros out out'; cbn [for_bin_soup].
  - intros [= <-]. split; [constructor|]. intros c. split; [auto|].
    intros [H|(it & Hit & _)]; [exact H|]. now apply elem_of_nil in Hit.
  - destruct (item_colour it) as [c|e] eqn:Hc; [|discriminate].
    destruct (first_date (ps it)) as [d|e] eqn:Hd; [|discriminate].
    cbn [and_then]. intros H. apply IH in H as [Hall Hdom].
    split; [constructor; [exists c, d; split; assumption|exact Hall]|].
    intros c'. rewrite Hdom, dom_insert, elem_of_union, elem_of_singleton.
    split.
    + intros [[->|H]|(it' & Hit' & Hc')]; [right|left|right].
      * exists it. split; [left|exact Hc].
      * exact H.
      * exists it'. split; [now right|exact Hc'].
    + intros [H|(it' & Hit' & Hc')]; [left; now right|].
      apply elem_of_cons in Hit' as [->|Hit'].
      * left. left. congruence.
      * right. eauto.
Qed.

Lemma for_bin_soup_app items items' out :
  for_bin_soup (items ++ items') out
  = and_then (for_bin_soup items out) (for_bin_soup items').
Proof.
  revert out. induction items as [|it items IH]; intros out; [reflexivity|].
  cbn [app for_bin_soup].
  destruct (item_colour it); [|reflexivity].
  destruct (first_date (ps it)); [|reflexivity]. cbn [and_then]. apply IH.
Qed.

Lemma for_bin_soup_keeps items c : forall out out',
  Forall (fun it => item_colour it <> Done c) items ->
  for_bin_soup items out = Done out' -> out' !! c = out !! c.
Proof.
  induction items as [|it items IH]; intros out out' Hne;
    cbn [for_bin_soup]; [now intros [= <-]|].
  apply Forall_cons in Hne as [Hit Hne].
  destruct (item_colour it) as [c'|e] eqn:Hc; [|discriminate].
  destruct (first_date (ps it)) as [d|e]; [|discriminate].
  cbn [and_then]. intros H. rewrite (IH _ _ Hne H).
  apply lookup_insert_ne. congruence.
Qed.

End WithStrptime.

End Scraper.

Module ScraperSpec.
Import Py Date Server ServerSpec Scraper.
Local Open Scope string_scope.
Local Open Scope list_scope.

Section WithStrptime.

Variable strptime : string -> option date.

(** X7.  The scraper returns a mapping only when every item has a colour of
    [BIN_COLOURS] and a date, and every colour of [BIN_COLOURS] has an item;
    the mapping then has exactly the four categories. *)
Theorem bin_collection_dates_Done (items : list service_item)
    (out : gmap string date) :
  bin_collection_dates strptime items = Done out ->
  dom out = BIN_COLOURS /\
  Forall (fun it => exists c d,
            c ∈ BIN_COLOURS /\ item_entry strptime it c d) items /\
  (forall c, c ∈ BIN_COLOURS ->
     exists it, it ∈ items /\ item_colour it = Done c).
Proof.
  unfold bin_collection_dates.
  destruct (for_bin_soup strptime items ∅) as [out'|e] eqn:Hloop;
    [|discriminate].
  cbn [and_then]. case_decide as Hdom; [|discriminate]. intros [= <-].
  apply for_bin_soup_Done in Hloop as [Hall Hin].
  split; [exact Hdom|]. split.
  - eapply Forall_impl; [exact Hall|]. intros it (c & d & Hc & Hd).
    exists c, d. split; [|split; assumption].
    eapply item_colour_BIN_COLOURS, Hc.
  - intros c Hc. rewrite <- Hdom in Hc. apply Hin in Hc as [Hc|Hc];
      [|exact Hc]. rewrite dom_empty in Hc. now apply elem_of_empty in Hc.
Qed.

(** X8.  When two items have the same colour the later one decides the date. *)
Theorem bin_collection_dates_last_wins (before after : list service_item)
    (it : service_item) (c : string) (d : date) (out : gmap string date) :
  bin_collection_dates strptime (before ++ it :: after) = Done out ->
  item_entry strptime it c d ->
  Forall (fun it' => item_colour it' <> Done c) after ->
  out !! c = Some d.
Proof.
  unfold bin_collection_dates. intros H [Hc Hd] Hafter.
  destruct (for_bin_soup strptime (before ++ it :: after) ∅)
    as [out'|e] eqn:Hloop; [|discriminate].
  cbn [and_then] in H. case_decide; [|discriminate]. injection H as <-.
  rewrite for_bin_soup_app in Hloop.
  destruct (for_bin_soup strptime before ∅) as [out0|e]; [|discriminate].
  cbn [and_then for_bin_soup] in Hloop. rewrite Hc, Hd in Hloop.
  cbn [and_then] in Hloop.
  rewrite (for_bin_soup_keeps strptime _ _ _ _ Hafter Hloop).
  apply lookup_insert_eq.
Qed.

(** X10.  What the scraper returns never makes the selector builder fail on a
    missing category: for every day the builder gives the action text or
    raises [DateInPastError], and the scan raises nothing else either. *)
Theorem bin_collection_dates_feeds_builder (items : list service_item)
    (out : gmap string date) (now : date) :
  bin_collection_dates strptime items = Done out ->
  ((exists actions, ui_inkscape_actions out now = Ok actions) \/
   ui_inkscape_actions out now = Raise DateInPastError) /\
  (forall fuel e,
     get_next_update fuel out now = Some (Raise e) -> e = DateInPastError).
Proof.
  intros H. apply bin_collection_dates_Done in H as (Hdom & _ & _).
  assert (Hall : forall c, c ∈ BIN_COLOURS -> is_Some (out !! c)).
  { intros c Hc. apply elem_of_dom. now rewrite Hdom. }
  split.
  - destruct (ui_inkscape_actions out now) as [a|e] eqn:Hui; [eauto|].
    right. f_equal. eapply ui_inkscape_actions_Raise; eauto.
  - intros fuel e. unfold get_next_update.
    destruct (ui_inkscape_actions out now) as [a|e'] eqn:Hui.
    + clear Hui. revert now. induction fuel as [|fuel IH]; intros now;
        [discriminate|]. cbn [scan].
      destruct (ui_inkscape_actions out (now + 1)) as [a'|e'] eqn:Hnext.
      * destruct (String.eqb a a'); [apply IH|discriminate].
      * apply ui_inkscape_actions_Raise in Hnext; [|exact Hall].
        subst e'. discriminate.
    + intros [= <-]. eapply ui_inkscape_actions_Raise; eauto.
Qed.

Lemma for_bin_soup_accepted items : forall out,
  Forall (fun it => exists c d, item_entry strptime it c d) items ->
  exists out', for_bin_soup strptime items out = Done out'.
Proof.
  induction items as [|it items IH]; intros out Hall; [now exists out|].
  apply Forall_cons in Hall as [(c & d & Hc & Hd) Hall].
  cbn [for_bin_soup]. rewrite Hc, Hd. cbn [and_then]. now apply IH.
Qed.

(** X9.  How the scraper fails.  The first item that has no valid colour, or a
    valid colour and no date, decides the error, whatever follows it; and
    when every item is accepted but a category of [BIN_COLOURS] has no item,
    the call fails with the [ValueError] for unexpected colours. *)
Theorem bin_collection_dates_Fail (before after : list service_item)
    (it : service_item) (items : list service_item) :
  Forall (fun it => exists c d, item_entry strptime it c d) before ->
  (forall e, item_colour it = Fail e ->
     bin_collection_dates strptime (before ++ it :: after) = Fail e) /\
  (forall c e, item_colour it = Done c -> first_date strptime (ps it) = Fail e ->
     bin_collection_dates strptime (before ++ it :: after) = Fail e) /\
  (forall c,
     Forall (fun it => exists c d, item_entry strptime it c d) items ->
     c ∈ BIN_COLOURS ->
     Forall (fun it => item_colour it <> Done c) items ->
     bin_collection_dates strptime items
     = Fail (ValueError UnexpectedBinColours)).
Proof.
  intros Hbefore.
  destruct (for_bin_soup_accepted before ∅ Hbefore) as [out0 H0].
  split; [|split].
  - intros e He. unfold bin_collection_dates.
    rewrite for_bin_soup_app, H0. cbn [and_then for_bin_soup].
    now rewrite He.
  - intros c e Hc He. unfold bin_collection_dates.
    rewrite for_bin_soup_app, H0. cbn [and_then for_bin_soup].
    now rewrite Hc, He.
  - intros c Hall Hc Hnone. unfold bin_collection_dates.
    destruct (for_bin_soup_accepted items ∅ Hall) as [out Hout].
    rewrite Hout. cbn [and_then]. case_decide as Hdom; [|reflexivity].
    exfalso. rewrite <- Hdom in Hc.
    apply (for_bin_soup_Done strptime) in Hout as [_ Hin].
    apply Hin in Hc as [Hc|(it' & Hit' & Hc')].
    + rewrite dom_empty in Hc. now apply elem_of_empty in Hc.
    + rewrite Forall_forall in Hnone. now apply (Hnone it').
Qed.

End WithStrptime.

(** An example page: a date parser that knows two dates, and five items, the
    first two for the black bin. *)
Definition strptime_2000 (s : string) : option date :=
  if String.eqb s "Monday, 03 January 2000" then Some 730122
  else if String.eqb s "Monday, 10 January 2000" then Some 730129
  else None.

Definition page_2000 : list service_item :=
  [ ServiceItem (Some "Black bin")
      [Some "Your next collection is"; Some " Monday, 10 January 2000 "];
    ServiceItem (Some "Black bin") [Some "Monday, 03 January 2000"];
    ServiceItem (Some "Blue bin") [Some "Monday, 10 January 2000"];
    ServiceItem (Some "Brown bin") [Some "Monday, 10 January 2000"];
    ServiceItem (Some "Green bin") [Some "Monday, 03 January 2000"] ].

Definition out_2000 : gmap string date :=
  {[ "black" := 730122; "blue" := 730129; "brown" := 730129;
     "green" := 730122 ]}.

Lemma page_2000_Done :
  bin_collection_dates strptime_2000 page_2000 = Done out_2000.
Proof. vm_compute. reflexivity. Qed.

Lemma bin_collection_dates_Done_witness :
  dom out_2000 = BIN_COLOURS /\
  Forall (fun it => exists c d,
            c ∈ BIN_COLOURS /\ item_entry strptime_2000 it c d) page_2000 /\
  (forall c, c ∈ BIN_COLOURS ->
     exists it, it ∈ page_2000 /\ item_colour it = Done c).
Proof.
  exact (bin_collection_dates_Done strptime_2000 page_2000 out_2000
           page_2000_Done).
Defined.

Lemma bin_collection_dates_last_wins_witness :
  out_2000 !! "black" = Some 730122.
Proof.
  apply (bin_collection_dates_last_wins strptime_2000
           [ServiceItem (Some "Black bin")
              [Some "Your next collection is";
               Some " Monday, 10 January 2000 "]]
           [ServiceItem (Some "Blue bin") [Some "Monday, 10 January 2000"];
            ServiceItem (Some "Brown bin") [Some "Monday, 10 January 2000"];
            ServiceItem (Some "Green bin") [Some "Monday, 03 January 2000"]]
           (ServiceItem (Some "Black bin") [Some "Monday, 03 January 2000"])
           "black" 730122 out_2000 page_2000_Done).
  - split; vm_compute; reflexivity.
  - repeat constructor; vm_compute; discriminate.
Defined.

Lemma bin_collection_dates_feeds_builder_witness :
  ((exists actions, ui_inkscape_actions out_2000 730122 = Ok actions) \/
   ui_inkscape_actions out_2000 730122 = Raise DateInPastError) /\
  (forall fuel e,
     get_next_update fuel out_2000 730122 = Some (Raise e) ->
     e = DateInPastError).
Proof.
  exact (bin_collection_dates_feeds_builder strptime_2000 page_2000 out_2000
           730122 page_2000_Done).
Defined.

Lemma bin_collection_dates_Fail_witness :
  (forall e, item_colour (ServiceItem (Some "Red bin") []) = Fail e ->
     bin_collection_dates strptime_2000
       (page_2000 ++ ServiceItem (Some "Red bin") [] :: []) = Fail e) /\
  (forall c e,
     item_colour (ServiceItem (Some "Red bin") []) = Done c ->
     first_date strptime_2000 (ps (ServiceItem (Some "Red bin") [])) = Fail e ->
     bin_collection_dates strptime_2000
       (page_2000 ++ ServiceItem (Some "Red bin") [] :: []) = Fail e) /\
  (forall c,
     Forall (fun it => exists c d, item_entry strptime_2000 it c d)
       (take 4 page_2000) ->
     c ∈ BIN_COLOURS ->
     Forall (fun it => item_colour it <> Done c) (take 4 page_2000) ->
     bin_collection_dates strptime_2000 (take 4 page_2000)
     = Fail (ValueError UnexpectedBinColours)).
Proof.
  apply (bin_collection_dates_Fail strptime_2000 page_2000 []
           (ServiceItem (Some "Red bin") []) (take 4 page_2000)).
  repeat constructor; eexists _, _; split; vm_compute; reflexivity.
Defined.

End ScraperSpec.

(** * Further properties of the firmware *)

Module FirmwareExtra.
Import Py Firmware FirmwareSpec.
Local Open Scope string_scope.
Local Open Scope list_scope.

(** The state of the radio along a trace: [Some true] after a [Connect]
    with no sleep yet, [Some false] after a sleep (or at the start), [None]
    once a [Connect] followed another with no sleep between them. *)
Fixpoint paced (awake : bool) (calls : list action) : option bool :=
  match calls with
  | [] => Some awake
  | Connect :: calls' => if awake then None else paced true calls'
  | SleepFor _ :: calls' => paced false calls'
  | _ :: calls' => paced awake calls'
  end.

(** The minutes of the sleeps of a trace, in order. *)
Fixpoint sleeps (calls : list action) : list Z :=
  match calls with
  | [] => []
  | SleepFor minutes :: calls' => minutes :: sleeps calls'
  | _ :: calls' => sleeps calls'
  end.

Lemma paced_app awake calls calls' :
  paced awake (calls ++ calls')
  = match paced awake calls with
    | Some awake' => paced awake' calls'
    | None => None
    end.
Proof.
  revert awake. induction calls as [|a calls IH]; intros awake;
    [reflexivity|].
  destruct a; cbn [app paced]; auto. destruct awake; auto.
Qed.

Lemma sleeps_app calls calls' :
  sleeps (calls ++ calls') = sleeps calls ++ sleeps calls'.
Proof.
  induction calls as [|a calls IH]; [reflexivity|].
  destruct a; cbn [app sleeps]; auto. now rewrite IH.
Qed.

Lemma for_header_bytes_eta hs :
  for_header_bytes hs = ([], snd (for_header_bytes hs)).
Proof.
  pose proof (for_header_bytes_trace hs) as H.
  destruct (for_header_bytes hs) as [t o]. cbn in *. now subst t.
Qed.

(** Unfold a cycle and split on every answer of its environment. *)
Ltac cycle_cases env :=
  unfold cycle, try_body, handler, call, bind, ret, raise, try_except;
  destruct (connect_result env) as [?e|];
  [|destruct (get_result env) as [?e|?r];
    [|match goal with
      | |- context [for_header_bytes ?hs] =>
          rewrite (for_header_bytes_eta hs);
          destruct (snd (for_header_bytes hs)) as [?n|?e|]
      end]];
  repeat match goal with
         | |- context [is_Exception ?e] => destruct (is_Exception e) eqn:?
         | |- context [show_error_result env] =>
             destruct (show_error_result env) as [?e|]
         | |- context [show_png_result env] =>
             destruct (show_png_result env) as [?e|]
         | |- context [sleep_result env] =>
             destruct (sleep_result env) as [?e|]
         | |- context [(?a =? ?b)%Z] => destruct (a =? b)%Z
         end;
  cbn.

(** A cycle that comes to its end returns 1 or the doubled, capped
    backoff. *)
Lemma cycle_Returns env b b' :
  snd (cycle env b) = Returns b' ->
  b' = 1 \/ b' = Z.min (24 * 60) (b * 2).
Proof. cycle_cases env; intros [= <-]; auto. Qed.

(** A cycle entered after a sleep connects once, and has slept again when
    it comes to its end. *)
Lemma cycle_paced env b :
  exists awake,
    paced false (fst (cycle env b)) = Some awake /\
    (forall b', snd (cycle env b) = Returns b' -> awake = false).
Proof.
  cycle_cases env;
    (eexists; split; [reflexivity|]; intros b'; try discriminate; reflexivity).
Qed.

Lemma while_true_paced envs : forall b,
  exists awake, paced false (fst (while_true envs b)) = Some awake.
Proof.
  induction envs as [|env envs IH]; intros b; [now exists false|].
  cbn [while_true]. destruct (cycle_paced env b) as (awake & Hp & Hret).
  unfold bind. destruct (cycle env b) as [t [b'|e|]]; cbn [fst snd] in *;
    eauto.
  destruct (IH b') as [awake' Hp'].
  destruct (while_true envs b') as [t' o]. cbn [fst] in *.
  rewrite paced_app, Hp, (Hret b' eq_refl). eauto.
Qed.

Lemma paced_between awake t2 t3 :
  paced true (t2 ++ Connect :: t3) = Some awake ->
  exists n, SleepFor n ∈ t2.
Proof.
  induction t2 as [|a t2 IH]; [discriminate|].
  destruct a; cbn [app paced]; try discriminate;
    try (intros H; destruct (IH H) as [n Hn]; exists n; now right).
  intros _. eexists. left.
Qed.

Lemma paced_no_double awake0 awake t1 t2 t3 :
  paced awake0 (t1 ++ Connect :: t2 ++ Connect :: t3) = Some awake ->
  exists n, SleepFor n ∈ t2.
Proof.
  revert awake0. induction t1 as [|a t1 IH]; intros awake0.
  - cbn [app paced]. destruct awake0; [discriminate|]. apply paced_between.
  - destruct a; cbn [app paced]; try apply IH.
    destruct awake0; [discriminate|apply IH].
Qed.

(** X11.  The program never connects twice without a sleep between the two
    connections, whatever the network, the server and the display do. *)
Theorem main_sleeps_between_connections (envs : list cycle_env)
    (final_sleep_result : option exn) (t1 t2 t3 : list action) :
  fst (main envs final_sleep_result) = t1 ++ Connect :: t2 ++ Connect :: t3 ->
  exists minutes, SleepFor minutes ∈ t2.
Proof.
  intros H. destruct (while_true_paced envs 1) as [awake Hp].
  assert (exists awake', paced false (fst (main envs final_sleep_result))
                         = Some awake') as [awake' Hp'].
  { unfold main, try_finally, call.
    destruct (while_true envs 1) as [t [[]|e|]]; cbn [fst] in *; [|eauto].
    rewrite paced_app, Hp. cbn. eauto. }
  rewrite H in Hp'. eapply paced_no_double, Hp'.
Qed.

Lemma main_sleeps_between_connections_witness :
  exists minutes,
    SleepFor minutes ∈ [Get; ShowError "Exception" "Status 404!"; SleepFor 1].
Proof.
  apply (main_sleeps_between_connections
           [answer 404 [];
            CycleEnv (Some (Exn "OSError" "no wifi" true))
                     (inr (Response 200 "png" [])) None None None] None
           [] [Get; ShowError "Exception" "Status 404!"; SleepFor 1]
           [SleepFor 1440]).
  vm_compute. reflexivity.
Defined.

(** X12.  The backoff stays between one minute and a day: after any number of
    cycles that came to their end it is at least 1 and at most [24 * 60]. *)
Theorem backoff_bounds (envs : list cycle_env) (b : Z) :
  backoff_after envs 1 = Some b -> 1 <= b <= 24 * 60.
Proof.
  assert (H : forall b0, 1 <= b0 <= 24 * 60 ->
            backoff_after envs b0 = Some b -> 1 <= b <= 24 * 60).
  { induction envs as [|env envs IH]; intros b0 Hb0; cbn [backoff_after].
    - intros [= <-]. exact Hb0.
    - destruct (snd (cycle env b0)) as [b1|e|] eqn:Hc; try discriminate.
      apply IH. apply cycle_Returns in Hc as [->| ->]; lia. }
  apply H. lia.
Qed.

Lemma backoff_bounds_witness : 1 <= 8 <= 24 * 60.
Proof.
  apply (backoff_bounds [answer 404 []; answer 404 []; answer 404 []] 8).
  vm_compute. reflexivity.
Defined.

Lemma while_true_app envs rest : forall b b',
  backoff_after envs b = Some b' ->
  while_true (envs ++ rest) b
  = (fst (while_true envs b) ++ fst (while_true rest b'),
     snd (while_true rest b')).
Proof.
  induction envs as [|env envs IH]; intros b b'; cbn [backoff_after].
  - intros [= <-]. cbn [app while_true fst]. now destruct (while_true rest b).
  - cbn [app while_true]. unfold bind.
    destruct (cycle env b) as [t [b1|e|]]; cbn [snd]; try discriminate.
    intros H. rewrite (IH _ _ H).
    destruct (while_true envs b1) as [t' o']. cbn [fst].
    now rewrite app_assoc.
Qed.

(** X13.  [badger.connect()] is outside the inner [try]: when it raises, even an
    [Exception], no error screen is shown and no retry is made; the program
    makes its final sleep and ends with the exception (or with the one the
    final sleep raises). *)
Theorem connect_failure_ends_program (before rest : list cycle_env)
    (env : cycle_env) (final_sleep_result : option exn) (b : Z) (e : exn) :
  backoff_after before 1 = Some b ->
  connect_result env = Some e ->
  main (before ++ env :: rest) final_sleep_result
  = (fst (while_true before 1) ++ [Connect; SleepFor (24 * 60)],
     Raises (default e final_sleep_result)).
Proof.
  intros Hb Hc. unfold main. rewrite (while_true_app _ _ _ _ Hb).
  cbn [while_true]. unfold cycle, call, bind. rewrite Hc. cbn [fst snd].
  unfold try_finally. destruct final_sleep_result; cbn;
    now rewrite <- app_assoc.
Qed.

Lemma connect_failure_ends_program_witness :
  main ([answer 404 []] ++
        CycleEnv (Some (Exn "OSError" "no wifi" true))
                 (inr (Response 200 "png" [])) None None None
        :: [answer 200 []]) None
  = (fst (while_true [answer 404 []] 1) ++ [Connect; SleepFor (24 * 60)],
     Raises (default (Exn "OSError" "no wifi" true) None)).
Proof.
  apply (connect_failure_ends_program [answer 404 []] [answer 200 []]
           (CycleEnv (Some (Exn "OSError" "no wifi" true))
                     (inr (Response 200 "png" [])) None None None)
           None 2 (Exn "OSError" "no wifi" true)).
  - vm_compute. reflexivity.
  - reflexivity.
Defined.

(** X14.  An answer whose status is not 200 is a failure whatever its body and
    headers are: the image is not shown, the error screen names the status,
    and the cycle sleeps the backoff and doubles it. *)
Theorem bad_status_shows_error (env : cycle_env) (r : response) (b : Z) :
  connect_result env = None -> get_result env = inr r ->
  status_code r <> 200 ->
  show_error_result env = None -> sleep_result env = None ->
  cycle env b
  = ([Connect; Get;
      ShowError "Exception" ("Status " +:+ pretty (status_code r) +:+ "!");
      SleepFor b],
     Returns (Z.min (24 * 60) (b * 2))).
Proof.
  intros Hc Hg Hst Hh Hs.
  unfold cycle, try_body, handler, call, bind, ret, raise, try_except.
  rewrite Hc, Hg, Hh, Hs. apply Z.eqb_neq in Hst. rewrite Hst. reflexivity.
Qed.

Lemma bad_status_shows_error_witness :
  cycle (answer 503 ["X-Next-Update: 7200"]) 4
  = ([Connect; Get; ShowError "Exception" "Status 503!"; SleepFor 4],
     Returns 8).
Proof.
  apply (bad_status_shows_error (answer 503 ["X-Next-Update: 7200"])
           (Response 503 "png" ["X-Next-Update: 7200"]) 4);
    [reflexivity|reflexivity|cbn; lia|reflexivity|reflexivity].
Defined.

Lemma try_body_sleeps env : sleeps (fst (try_body env)) = [].
Proof.
  unfold try_body, call, bind, ret, raise.
  destruct (get_result env) as [e|r]; [reflexivity|].
  rewrite (for_header_bytes_eta (headers r)).
  destruct (status_code r =? 200)%Z; [|reflexivity].
  destruct (show_png_result env); [reflexivity|].
  destruct (snd (for_header_bytes (headers r))); reflexivity.
Qed.

Lemma min_cap_double k :
  0 <= k ->
  Z.min (24 * 60) (Z.min (24 * 60) (2 ^ k) * 2)
  = Z.min (24 * 60) (2 ^ (k + 1)).
Proof.
  intros Hk. rewrite Z.pow_add_r, Z.pow_1_r by lia.
  assert (0 < 2 ^ k) as Hp by (apply Z.pow_pos_nonneg; lia).
  generalize dependent (2 ^ k). intros p Hp. lia.
Qed.

Lemma while_true_failures_sleeps fails : forall k : nat,
  Forall cycle_fails fails ->
  sleeps (fst (while_true fails (Z.min (24 * 60) (2 ^ Z.of_nat k))))
  = (fun i : nat => Z.min (24 * 60) (2 ^ Z.of_nat i))
      <$> seq k (length fails).
Proof.
  induction fails as [|env fails IH]; intros k Hf; [reflexivity|].
  apply Forall_cons in Hf as [(Hc & (e & Hb & He) & Hh & Hs) Hf].
  cbn [while_true length seq fmap list_fmap].
  rewrite (cycle_of_failure env _ e Hc Hb He Hh Hs). unfold bind.
  rewrite min_cap_double by lia.
  replace (Z.of_nat k + 1) with (Z.of_nat (S k)) by lia.
  specialize (IH (S k) Hf).
  destruct (while_true fails _) as [t o]. cbn [fst] in *.
  cbn [app sleeps]. rewrite !sleeps_app, try_body_sleeps, IH. reflexivity.
Qed.

(** X15.  Retries after failures back off: in a run of cycles that all fail, the
    sleeps are of 1, 2, 4, ... minutes, the [i]-th being
    [min (24 * 60) (2 ^ i)], and there is no other sleep. *)
Theorem failures_sleep_sequence (fails : list cycle_env) :
  Forall cycle_fails fails ->
  sleeps (fst (while_true fails 1))
  = (fun i : nat => Z.min (24 * 60) (2 ^ Z.of_nat i))
      <$> seq 0 (length fails).
Proof. apply (while_true_failures_sleeps fails 0). Qed.

Lemma failures_sleep_sequence_witness :
  sleeps (fst (while_true [answer 404 []; answer 404 []; answer 404 []] 1))
  = (fun i : nat => Z.min (24 * 60) (2 ^ Z.of_nat i)) <$> seq 0 3.
Proof.
  apply (failures_sleep_sequence
           [answer 404 []; answer 404 []; answer 404 []]).
  repeat constructor; apply answer_404_fails.
Defined.

End FirmwareExtra.

(** * The next-update header, from the server to the device

    [get_index] answers with the header [X-Next-Update] set to
    [str(next_update_seconds)], where [next_update_seconds] is
    [int(max(delta.total_seconds(), 60 * 60))].  [total_seconds()] is a
    float; the model takes its value as a rational number, which every
    finite float is, so that [max] and [int] are exact. *)

Module GetIndex.
Import QArith Qround.

(** [max(a, b)] on two arguments: [b] when [b > a], else [a]. *)
Definition max (a b : Q) : Q := if Qle_bool b a then a else b.

(** [int(x)] on a float: the integer part, towards zero. *)
Definition int_of_float (x : Q) : Z :=
  if Qle_bool 0 x then Qfloor x else Qceiling x.

Definition next_update_seconds (total_seconds : Q) : Z :=
  int_of_float (max total_seconds (inject_Z (60 * 60))).

(** The value of the header: [str(next_update_seconds)]. *)
Definition x_next_update (total_seconds : Q) : string :=
  pretty (next_update_seconds total_seconds).

End GetIndex.

Module HintSpec.
Import Py Firmware FirmwareSpec GetIndex.
Local Open Scope string_scope.
Local Open Scope list_scope.

(** X16.  The hint is never under an hour, and from an hour on it is the whole
    seconds of the time left. *)
Theorem next_update_seconds_floor (total_seconds : QArith_base.Q) :
  60 * 60 <= next_update_seconds total_seconds /\
  (QArith_base.Qle (QArith_base.inject_Z (60 * 60)) total_seconds ->
   next_update_seconds total_seconds = Qround.Qfloor total_seconds).
Proof.
  unfold next_update_seconds, max, int_of_float.
  destruct (QArith_base.Qle_bool (QArith_base.inject_Z (60 * 60))
              total_seconds) eqn:Hle.
  - apply QArith_base.Qle_bool_iff in Hle.
    assert (H0 : QArith_base.Qle_bool (QArith_base.Qmake 0 1) total_seconds = true).
    { apply QArith_base.Qle_bool_iff.
      eapply QArith_base.Qle_trans; [|exact Hle]. discriminate. }
    rewrite H0. split; [|reflexivity].
    rewrite <- (Qround.Qfloor_Z (60 * 60)). now apply Qround.Qfloor_resp_le.
  - replace (QArith_base.Qle_bool (QArith_base.Qmake 0 1) (QArith_base.inject_Z (60 * 60)))
      with true by reflexivity.
    rewrite Qround.Qfloor_Z. split; [lia|].
    intros H. apply QArith_base.Qle_bool_iff in H. congruence.
Qed.

(** *** Reading back what [str] wrote *)

Fixpoint string_all (P : ascii -> bool) (s : string) : bool :=
  match s with
  | EmptyString => true
  | String c s' => P c && string_all P s'
  end.

Definition is_digit (c : ascii) : bool :=
  match digit_of c with Some _ => true | None => false end.

Definition is_ascii (c : ascii) : bool := (nat_of_ascii c <? 128)%nat.

Lemma string_all_app P a b :
  string_all P (a +:+ b) = string_all P a && string_all P b.
Proof.
  induction a as [|c a IH]; [reflexivity|].
  change (String c a +:+ b) with (String c (a +:+ b)).
  cbn [string_all]. now rewrite IH, andb_assoc.
Qed.

Lemma string_all_impl (P Q : ascii -> bool) s :
  (forall c, P c = true -> Q c = true) ->
  string_all P s = true -> string_all Q s = true.
Proof.
  intros H. induction s as [|c s IH]; [reflexivity|]. cbn [string_all].
  intros [Hc Hs]%andb_true_iff. rewrite (H c Hc). now apply IH.
Qed.

Lemma is_space_is_ascii c : is_space c = true -> is_ascii c = true.
Proof.
  destruct c as [[] [] [] [] [] [] [] []]; vm_compute; congruence.
Qed.

Lemma is_digit_is_ascii c : is_digit c = true -> is_ascii c = true.
Proof.
  destruct c as [[] [] [] [] [] [] [] []]; vm_compute; congruence.
Qed.

Lemma is_digit_not_space c : is_digit c = true -> is_space c = false.
Proof.
  destruct c as [[] [] [] [] [] [] [] []]; vm_compute; congruence.
Qed.

Lemma decode_ascii_all s :
  string_all is_ascii s = true -> decode_ascii s = Some s.
Proof.
  intros H. unfold decode_ascii.
  replace (forallb _ (list_ascii_of_string s)) with true; [reflexivity|].
  symmetry. induction s as [|c s IH]; [reflexivity|].
  cbn [string_all] in H. apply andb_true_iff in H as [Hc Hs].
  cbn [list_ascii_of_string forallb]. unfold is_ascii in Hc.
  now rewrite Hc, IH.
Qed.

Lemma lstrip_pad pad s :
  string_all is_space pad = true -> lstrip (pad +:+ s) = lstrip s.
Proof.
  induction pad as [|c pad IH]; [reflexivity|]. cbn [string_all].
  intros [Hc Hp]%andb_true_iff.
  change (String c pad +:+ s) with (String c (pad +:+ s)).
  cbn [lstrip]. rewrite Hc. now apply IH.
Qed.

Lemma rstrip_pad pad : string_all is_space pad = true -> rstrip pad = EmptyString.
Proof.
  induction pad as [|c pad IH]; [reflexivity|]. cbn [string_all].
  intros [Hc Hp]%andb_true_iff. cbn [rstrip]. now rewrite IH, Hc.
Qed.

Lemma rstrip_text_pad text pad :
  string_all is_digit text = true -> string_all is_space pad = true ->
  rstrip (text +:+ pad) = text.
Proof.
  intros Ht Hp. induction text as [|c text IH]; [now apply rstrip_pad|].
  cbn [string_all] in Ht. apply andb_true_iff in Ht as [Hc Ht].
  change (String c text +:+ pad) with (String c (text +:+ pad)).
  cbn [rstrip]. rewrite (IH Ht). rewrite (is_digit_not_space c Hc).
  now destruct text.
Qed.

Lemma append_nil_r s : s +:+ EmptyString = s.
Proof.
  induction s as [|c s IH]; [reflexivity|].
  change (String c s +:+ EmptyString) with (String c (s +:+ EmptyString)).
  now rewrite IH.
Qed.

Lemma strip_padded pad1 text pad2 :
  string_all is_space pad1 = true -> string_all is_digit text = true ->
  string_all is_space pad2 = true ->
  strip (pad1 +:+ text +:+ pad2) = text.
Proof.
  intros H1 Ht H2. unfold strip. rewrite (lstrip_pad _ _ H1).
  destruct text as [|c text].
  - change (EmptyString +:+ pad2) with pad2.
    replace (lstrip pad2) with EmptyString; [reflexivity|].
    rewrite <- (append_nil_r pad2) at 1.
    now rewrite (lstrip_pad pad2 EmptyString H2).
  - pose proof Ht as Ht'. cbn [string_all] in Ht'.
    apply andb_true_iff in Ht' as [Hc _].
    change (String c text +:+ pad2) with (String c (text +:+ pad2)).
    cbn [lstrip]. rewrite (is_digit_not_space c Hc).
    change (String c (text +:+ pad2)) with (String c text +:+ pad2).
    now apply rstrip_text_pad.
Qed.

Lemma int_of_digits text :
  string_all is_digit text = true ->
  int text = digits 0 false text.
Proof.
  intros Ht. unfold int.
  rewrite <- (append_nil_r text) at 1.
  change (text +:+ EmptyString)
    with (EmptyString +:+ text +:+ EmptyString).
  rewrite strip_padded by auto.
  destruct text as [|c text]; [reflexivity|].
  cbn [string_all] in Ht. apply andb_true_iff in Ht as [Hc _].
  destruct c as [[] [] [] [] [] [] [] []]; try reflexivity;
    vm_compute in Hc; discriminate Hc.
Qed.

Lemma digit_of_pretty_N_char m :
  (m < 10)%N -> digit_of (pretty_N_char m) = Some (Z.of_N m).
Proof.
  intros H.
  assert (m = 0 \/ m = 1 \/ m = 2 \/ m = 3 \/ m = 4 \/ m = 5 \/ m = 6 \/
          m = 7 \/ m = 8 \/ m = 9)%N as Hm by lia.
  destruct Hm as [->|[->|[->|[->|[->|[->|[->|[->|[->| ->]]]]]]]]];
    reflexivity.
Qed.

Lemma pretty_N_go_digits x : forall s after_digit,
  (0 < x)%N ->
  digits 0 after_digit (pretty_N_go x s) = digits (Z.of_N x) true s.
Proof.
  induction (N.lt_wf_0 x) as [x _ IH]. intros s after_digit Hx.
  rewrite pretty_N_go_step by exact Hx.
  assert (Hm : (x `mod` 10 < 10)%N) by (apply N.mod_lt; lia).
  pose proof (N.div_mod x 10) as Hdm.
  destruct (N.eq_dec (N.div x 10) 0%N) as [H0|Hn0].
  - rewrite H0, pretty_N_go_0. cbn [digits].
    rewrite (digit_of_pretty_N_char _ Hm). f_equal. lia.
  - rewrite IH; [|apply N.div_lt; lia|lia]. cbn [digits].
    rewrite (digit_of_pretty_N_char _ Hm). f_equal. lia.
Qed.

Lemma pretty_N_go_all_digits x : forall s,
  string_all is_digit s = true -> string_all is_digit (pretty_N_go x s) = true.
Proof.
  induction (N.lt_wf_0 x) as [x _ IH]. intros s Hs.
  destruct (N.eq_dec x 0%N) as [->|Hx]; [now rewrite pretty_N_go_0|].
  rewrite pretty_N_go_step by lia. apply IH; [apply N.div_lt; lia|].
  cbn [string_all]. rewrite Hs, andb_true_r. unfold is_digit.
  rewrite digit_of_pretty_N_char; [reflexivity|apply N.mod_lt; lia].
Qed.

(** [int(str(n)) == n] for a natural number, and [str(n)] is made of
    digits. *)
Lemma str_round_trip n :
  0 <= n ->
  string_all is_digit (pretty n) = true /\ int (pretty n) = Some n.
Proof.
  intros Hn. destruct n as [|p|p]; [split; reflexivity| |lia].
  assert (Hp : pretty (Z.pos p) = pretty_N_go (N.pos p) EmptyString).
  { unfold pretty, pretty_Z, pretty_positive, pretty, pretty_N.
    now case_decide. }
  rewrite Hp.
  assert (Hall : string_all is_digit (pretty_N_go (N.pos p) EmptyString)
                 = true) by now apply pretty_N_go_all_digits.
  split; [exact Hall|].
  rewrite (int_of_digits _ Hall), pretty_N_go_digits by lia. reflexivity.
Qed.

Lemma hint_line n pad1 pad2 :
  0 <= n ->
  string_all is_space pad1 = true -> string_all is_space pad2 = true ->
  hint_header ("X-Next-Update:" +:+ pad1 +:+ pretty n +:+ pad2) /\
  int (strip (header_value ("X-Next-Update:" +:+ pad1 +:+ pretty n +:+ pad2)))
  = Some n.
Proof.
  intros Hn H1 H2. destruct (str_round_trip n Hn) as [Hd Hint].
  assert (Hv : header_value ("X-Next-Update:" +:+ pad1 +:+ pretty n +:+ pad2)
               = pad1 +:+ pretty n +:+ pad2) by reflexivity.
  split; [split|].
  - apply decode_ascii_all.
    rewrite !string_all_app.
    rewrite (string_all_impl _ _ _ is_space_is_ascii H1).
    rewrite (string_all_impl _ _ _ is_digit_is_ascii Hd).
    rewrite (string_all_impl _ _ _ is_space_is_ascii H2). reflexivity.
  - reflexivity.
  - rewrite Hv, strip_padded by assumption. exact Hint.
Qed.

(** X17.  The device reads back the number the server wrote: a header line made
    of [X-Next-Update:], whitespace, [str(n)] for a natural number [n], and
    whitespace (the line end) is taken for the hint, and its value parses
    to [n]. *)
Theorem hint_header_round_trip (n : Z) (pad1 pad2 : string) :
  0 <= n ->
  string_all is_space pad1 = true -> string_all is_space pad2 = true ->
  hint_header ("X-Next-Update:" +:+ pad1 +:+ pretty n +:+ pad2) /\
  for_header_bytes ["X-Next-Update:" +:+ pad1 +:+ pretty n +:+ pad2]
  = ret (n / 60).
Proof.
  intros Hn H1 H2. destruct (hint_line n pad1 pad2 Hn H1 H2) as [Hh Hint].
  split; [exact Hh|]. now rewrite (for_header_bytes_hint _ _ Hh), Hint.
Qed.

Lemma hint_header_round_trip_witness :
  hint_header ("X-Next-Update:" +:+ " " +:+ pretty 7260 +:+ EmptyString) /\
  for_header_bytes
    ["X-Next-Update:" +:+ " " +:+ pretty 7260 +:+ EmptyString]
  = ret (7260 / 60).
Proof.
  apply (hint_header_round_trip 7260 " " EmptyString);
    [lia|reflexivity|reflexivity].
Defined.

(** X18.  From the server to the device: when the fetch and the display succeed
    and the answer carries the header [get_index] writes, found before any
    other hint, the device sleeps the server's [next_update_seconds] in
    whole minutes, which is an hour or more, and resets the backoff. *)
Theorem server_hint_is_slept (env : cycle_env) (r : response) (b : Z)
    (total_seconds : QArith_base.Q) (others rest : list string)
    (pad1 pad2 : string) :
  fetch_and_display_succeed env r ->
  headers r
  = others
    ++ ("X-Next-Update:" +:+ pad1 +:+ x_next_update total_seconds +:+ pad2)
    :: rest ->
  Forall other_header others ->
  string_all is_space pad1 = true -> string_all is_space pad2 = true ->
  cycle env b
  = ([Connect; Get; ShowPng (content r);
      SleepFor (next_update_seconds total_seconds / 60)],
     Returns 1) /\
  60 <= next_update_seconds total_seconds / 60.
Proof.
  intros Hok Hh Hothers H1 H2.
  assert (Hn : 60 * 60 <= next_update_seconds total_seconds).
  { unfold next_update_seconds, max, int_of_float.
    destruct (QArith_base.Qle_bool (QArith_base.inject_Z (60 * 60))
                total_seconds) eqn:Hle.
    - apply QArith_base.Qle_bool_iff in Hle.
      assert (H0 : QArith_base.Qle_bool (QArith_base.Qmake 0 1)
                     total_seconds = true).
      { apply QArith_base.Qle_bool_iff.
        eapply QArith_base.Qle_trans; [|exact Hle]. discriminate. }
      rewrite H0. rewrite <- (Qround.Qfloor_Z (60 * 60)).
      now apply Qround.Qfloor_resp_le.
    - replace (QArith_base.Qle_bool (QArith_base.Qmake 0 1)
                 (QArith_base.inject_Z (60 * 60))) with true by reflexivity.
      rewrite Qround.Qfloor_Z. lia. }
  split.
  - rewrite (cycle_of_headers env r b Hok), Hh.
    rewrite for_header_bytes_others by exact Hothers.
    destruct (hint_line (next_update_seconds total_seconds) pad1 pad2)
      as [Hhint Hint]; [lia|assumption|assumption|].
    unfold x_next_update.
    now rewrite (for_header_bytes_hint _ _ Hhint), Hint.
  - apply Z.div_le_lower_bound; lia.
Qed.

Lemma server_hint_is_slept_witness :
  cycle (answer 200
           ["Content-Type: image/png";
            "X-Next-Update:" +:+ " "
              +:+ x_next_update (QArith_base.Qmake 14521 2)
              +:+ String (ascii_of_nat 13) EmptyString]) 8
  = ([Connect; Get; ShowPng "png";
      SleepFor (next_update_seconds (QArith_base.Qmake 14521 2) / 60)],
     Returns 1) /\
  60 <= next_update_seconds (QArith_base.Qmake 14521 2) / 60.
Proof.
  apply (server_hint_is_slept
           (answer 200
              ["Content-Type: image/png";
               "X-Next-Update:" +:+ " "
                 +:+ x_next_update (QArith_base.Qmake 14521 2)
                 +:+ String (ascii_of_nat 13) EmptyString])
           (Response 200 "png"
              ["Content-Type: image/png";
               "X-Next-Update:" +:+ " "
                 +:+ x_next_update (QArith_base.Qmake 14521 2)
                 +:+ String (ascii_of_nat 13) EmptyString])
           8 (QArith_base.Qmake 14521 2)
           ["Content-Type: image/png"] [] " "
           (String (ascii_of_nat 13) EmptyString)).
  - now apply answer_succeeds.
  - reflexivity.
  - repeat constructor. vm_compute. discriminate.
  - reflexivity.
  - reflexivity.
Defined.

End HintSpec.
